(** * Energy-Consumption-NavGreen: the dataset-creation pipeline

    A shallow embedding of [src/data_creation/dataset_creation.py]:
    the CLR-tick epoch converter, the channel loader and timeline merger
    ([create_dataframe]), the valid-range trimmer and timestamp normaliser
    ([process_dataframe]), the resample/aggregate step of the module's
    top-level loop, and the coordinate parser [dms_string_to_decimal].

    Conventions of the embedding.
    - Python integers are [Z]; a pandas missing value (NaN / None) is the
      [None] of an [option].
    - Floating-point values are represented by the rationals [Q]: the
      properties stated below are about missingness, slicing and exact
      one-sample results, none of which depends on rounding.
    - A raised Python exception is the [Raise] of [result]; the events a
      function performs on the outside world (files written, lines printed)
      are collected in order in front of the result. *)

From Stdlib Require Import ZArith QArith Lia Ascii String.
From stdpp Require Import base list strings sorting.

Close Scope Q_scope.
Local Open Scope Z_scope.

(** ** Python exceptions and results *)

Inductive exception : Type :=
  | IndexError
  | KeyError
  | ValueError
  | AssertionError
  | OutOfBoundsDatetime.

Inductive result (A : Type) : Type :=
  | Ok (a : A)
  | Raise (e : exception).
Arguments Ok {A} a.
Arguments Raise {A} e.

Definition result_bind {A B} (r : result A) (k : A -> result B) : result B :=
  match r with
  | Ok a => k a
  | Raise e => Raise e
  end.

Notation "x <- r ;; k" := (result_bind r (fun x => k))
  (at level 100, r at next level, right associativity, only parsing).

(** ** Calendar instants ([pandas.Timestamp])

    A [Timestamp] is identified by its whole-second offset from the Unix
    epoch; [NaT] is pandas' missing instant. *)

Inductive datetime : Type :=
  | NaT
  | Timestamp (unix_seconds : Z).

(** The constructor [pd.Timestamp(n, unit='s')] is library code.  Its
    result is stored in a fixed-width representation, so it accepts only a
    bounded interval of second offsets and raises [OutOfBoundsDatetime]
    (a [ValueError]) outside of it.  The interval depends on the pandas release and is a
    parameter of the embedding. *)

Record TimestampBounds : Type :=
  { ts_min : Z;    (* least accepted second offset *)
    ts_max : Z }.  (* greatest accepted second offset *)

(** pandas 1.x stores nanoseconds in a signed 64-bit integer:
    1677-09-21 00:12:44 .. 2262-04-11 23:47:16. *)
Definition nanosecond_bounds : TimestampBounds :=
  {| ts_min := -9223372036; ts_max := 9223372036 |}.

(** pandas 2.x keeps the unit of seconds; the instant has to be a
    proleptic Gregorian date of the years 1 .. 9999:
    0001-01-01 00:00:00 .. 9999-12-31 23:59:59. *)
Definition calendar_bounds : TimestampBounds :=
  {| ts_min := -62135596800; ts_max := 253402300799 |}.

Definition in_bounds (b : TimestampBounds) (s : Z) : Prop :=
  ts_min b <= s <= ts_max b.

Definition pd_Timestamp (b : TimestampBounds) (s : Z) : result datetime :=
  if (ts_min b <=? s) && (s <=? ts_max b) then Ok (Timestamp s)
  else Raise OutOfBoundsDatetime.

(** ** Epoch converter (source lines 50-59) *)

(** Ticks between the CLR DateTime epoch (0001-01-01) and the Unix epoch
    (1970-01-01); 1 tick = 100 nanoseconds. *)
Definition CLR_UNIX_EPOCH_DIFF_TICKS : Z := 621355968000000000.

(** Python's [//] on integers is floor division, which is [Z.div]. *)
Definition clr_datetime_to_unix_time (b : TimestampBounds)
    (clr_datetime : option Z) : result datetime :=
  match clr_datetime with
  | None => Ok NaT
  | Some t =>
      let unix_timestamp := (t - CLR_UNIX_EPOCH_DIFF_TICKS) / 10000000 in
      pd_Timestamp b unix_timestamp
  end.

(** The greatest tick count of a CLR DateTime (9999-12-31 23:59:59.9999999). *)
Definition CLR_MAX_TICKS : Z := 3155378975999999999.

(** ** Tables ([pandas.DataFrame])

    A cell of a value column holds a number, a text, or nothing. *)

Inductive value : Type :=
  | Num (q : Q)
  | Str (s : string).

Definition cell : Type := option value.

(** A frame has one key column (the raw ['timestamp'] ticks before
    normalisation, the ['datetime'] instant after it) and the value
    columns named by [columns]; a row carries its key and one cell per
    value column.  Rows are labelled by position (a [RangeIndex]). *)

Record Frame (K : Type) : Type :=
  { columns : list string;
    rows : list (K * list cell) }.
Arguments columns {K} _.
Arguments rows {K} _.

Definition DataFrame : Type := Frame Z.

Definition keys {K} (df : Frame K) : list K := (rows df).*1.

(** [len(df.columns)]: the value columns and the key column. *)
Definition len_columns {K} (df : Frame K) : nat := S (length (columns df)).

(** ** Effects: files written and lines printed, in program order *)

Inductive event (K : Type) : Type :=
  | ToCsv (path : string) (df : Frame K)
  | Print (msg : string).
Arguments ToCsv {K} path df.
Arguments Print {K} msg.

Definition M (K A : Type) : Type := list (event K) * result A.

Definition ret {K A} (a : A) : M K A := ([], Ok a).
Definition raise {K A} (e : exception) : M K A := ([], Raise e).
Definition emit {K} (ev : event K) : M K unit := ([ev], Ok tt).
Definition lift {K A} (r : result A) : M K A := ([], r).

Definition bind {K A B} (m : M K A) (k : A -> M K B) : M K B :=
  match m with
  | (evs, Ok a) => let '(evs', r) := k a in (evs ++ evs', r)
  | (evs, Raise e) => (evs, Raise e)
  end.

Notation "x <~ m ;; k" := (bind m (fun x => k))
  (at level 100, m at next level, right associativity, only parsing).
Notation "m ;;; k" := (bind m (fun _ => k))
  (at level 100, right associativity, only parsing).

(** ** Paths ([os.path.basename], [os.path.splitext]) *)

Definition is_sep (c : ascii) : bool := Ascii.eqb c "/"%char.
Definition is_dot (c : ascii) : bool := Ascii.eqb c "."%char.

Fixpoint has_char (p : ascii -> bool) (s : string) : bool :=
  match s with
  | EmptyString => false
  | String c s' => p c || has_char p s'
  end.

(** The part of the path after its last separator. *)
Fixpoint basename (path : string) : string :=
  match path with
  | EmptyString => EmptyString
  | String c rest =>
      if has_char is_sep rest then basename rest
      else if is_sep c then rest else path
  end.

(** [splitext(name)[0]] for a name without separator: the name up to its
    last dot, unless everything before that dot is dots as well. *)
Fixpoint splitext_root_aux (seen_name_char : bool) (name : string) : string :=
  match name with
  | EmptyString => EmptyString
  | String c rest =>
      if is_dot c && seen_name_char && negb (has_char is_dot rest)
      then EmptyString
      else String c (splitext_root_aux (seen_name_char || negb (is_dot c)) rest)
  end.

Definition splitext_root (name : string) : string :=
  splitext_root_aux false name.

(** ** Channel loader (source lines 29-35) *)

(** One input file as [glob] finds it: its path, and the two headerless
    columns [pd.read_csv] parses out of it. *)
Record CsvFile : Type :=
  { path : string;
    content : list (Z * cell) }.

(** [pd.read_csv(file, header=None, names=[...])] refuses duplicate names. *)
Definition read_csv_named (file : CsvFile) (column_name : string)
  : result DataFrame :=
  if decide (column_name = "timestamp") then Raise ValueError
  else Ok {| columns := [column_name];
             rows := (fun '(t, v) => (t, [v])) <$> content file |}.

Definition column_name_of (file : CsvFile) : string :=
  splitext_root (basename (path file)).





Fixpoint load_all (csv_files : list CsvFile) : result (list DataFrame) :=
  match csv_files with
  | [] => Ok []
  | file :: rest =>
      df <- read_csv_named file (column_name_of file) ;;
      dataframes <- load_all rest ;;
      Ok (df :: dataframes)
  end.

(** ** Timeline merger (source lines 37-43) *)

Definition key_le {A} (r1 r2 : Z * A) : Prop := r1.1 <= r2.1.

Global Instance key_le_dec {A} (r1 r2 : Z * A) : Decision (key_le r1 r2).
Proof. unfold key_le. apply _. Defined.

Global Instance key_le_total {A} : Total (@key_le A).
Proof. intros r1 r2. unfold key_le. lia. Qed.

(** [DataFrame.sort_values(by='timestamp')]. *)
Definition sort_values (df : DataFrame) : DataFrame :=
  {| columns := columns df; rows := merge_sort key_le (rows df) |}.

Definition nans (n : nat) : list cell := replicate n None.

Definition has_key {A} (k : Z) (rs : list (Z * A)) : bool :=
  existsb (fun r => Z.eqb r.1 k) rs.

(** The rows of a full outer join on the key: every left row paired with
    each right row of the same key, or padded when there is none, then the
    right rows whose key the left frame lacks. *)
Definition join_left (wr : nat) (right : list (Z * list cell))
    (l : Z * list cell) : list (Z * list cell) :=
  match filter (fun r => r.1 = l.1) right with
  | [] => [(l.1, l.2 ++ nans wr)]
  | matches => (fun r => (l.1, l.2 ++ r.2)) <$> matches
  end.

Definition join_right_only (wl : nat) (left right : list (Z * list cell))
  : list (Z * list cell) :=
  (fun r => (r.1, nans wl ++ r.2)) <$>
    filter (fun r => has_key r.1 left = false) right.

Definition outer_join_rows (wl wr : nat) (left right : list (Z * list cell))
  : list (Z * list cell) :=
  (left ≫= join_left wr right) ++ join_right_only wl left right.

(** Value columns named alike in both frames get the suffixes [_x] (left)
    and [_y] (right), pandas' default [suffixes]. *)
Definition suffixed (sfx : string) (other : list string) (name : string)
  : string :=
  if decide (name ∈ other) then name +:+ sfx else name.

(** [pd.merge(left, right, on='timestamp', how='outer')]; an outer join
    returns its rows in key order. *)
Definition merge_outer (left right : DataFrame) : DataFrame :=
  {| columns := (suffixed "_x" (columns right) <$> columns left) ++
                (suffixed "_y" (columns left) <$> columns right);
     rows := merge_sort key_le
               (outer_join_rows (length (columns left)) (length (columns right))
                  (rows left) (rows right)) |}.

(** [dataframes[0]]. *)
Definition first_item {A} (l : list A) : result A :=
  match l with
  | [] => Raise IndexError
  | x :: _ => Ok x
  end.

Definition create_dataframe (csv_files : list CsvFile) (output_file : string)
  : M Z unit :=
  dataframes <~ lift (load_all csv_files) ;;
  first <~ lift (first_item dataframes) ;;
  let merged_df := foldl merge_outer first (tail dataframes) in
  let merged_df := sort_values merged_df in
  emit (ToCsv output_file merged_df) ;;;
  emit (Print ("Concatenated CSV file saved to " +:+ output_file)).

(** ** Valid-range trimmer and timestamp normaliser (source lines 62-90) *)

(** [df[name]]: the key column is always present and never missing; a
    value column is looked up by its label. *)
Definition getitem (df : DataFrame) (name : string) : result (list cell) :=
  if decide (name = "timestamp")
  then Ok ((fun r => Some (Num (inject_Z r.1))) <$> rows df)
  else match list_find (fun c => c = name) (columns df) with
       | Some (j, _) => Ok ((fun r => default None (r.2 !! j)) <$> rows df)
       | None => Raise KeyError
       end.

Definition notna (c : cell) : bool :=
  match c with
  | Some _ => true
  | None => false
  end.

(** [Series.first_valid_index()]: the label of the first non-missing
    entry, [None] when there is none. *)
Fixpoint first_valid_index (col : list cell) : option nat :=
  match col with
  | [] => None
  | c :: rest => if notna c then Some 0%nat else S <$> first_valid_index rest
  end.

(** [Series.last_valid_index()]. *)
Fixpoint last_valid_index (col : list cell) : option nat :=
  match col with
  | [] => None
  | c :: rest =>
      match last_valid_index rest with
      | Some i => Some (S i)
      | None => if notna c then Some 0%nat else None
      end
  end.

(** [df.loc[i:]] and [df.loc[:j]] (label slices include both ends),
    each followed by [reset_index(drop=True)]. *)
Definition loc_from {K} (i : nat) (df : Frame K) : Frame K :=
  {| columns := columns df; rows := drop i (rows df) |}.

Definition loc_upto {K} (j : nat) (df : Frame K) : Frame K :=
  {| columns := columns df; rows := take (S j) (rows df) |}.

(** Source lines 70-82. *)
Definition trim_valid_range (df : DataFrame) (pred_column : string)
  : result DataFrame :=
  col <- getitem df pred_column ;;
  let df :=
    match first_valid_index col with
    | Some first => loc_from first df
    | None => df
    end in
  col <- getitem df pred_column ;;
  let df :=
    match last_valid_index col with
    | Some last => loc_upto last df
    | None => df
    end in
  Ok df.

(** [Series.apply(f)] for a function that may raise. *)
Fixpoint apply {A B} (f : A -> result B) (l : list A) : result (list B) :=
  match l with
  | [] => Ok []
  | x :: rest =>
      y <- f x ;;
      ys <- apply f rest ;;
      Ok (y :: ys)
  end.

(** [pd.to_datetime(column)] on a column that holds instants (source
    line 86): every instant is stored in the column's datetime type,
    within the range of the timestamp type. *)
Definition pd_to_datetime (b : TimestampBounds) (column : list datetime)
  : result (list datetime) :=
  apply (fun d => match d with
                  | NaT => Ok NaT
                  | Timestamp s => pd_Timestamp b s
                  end) column.

(** The assignment [df[name] = ...] appends a column, or overwrites the
    value column that already has the label [name]: the cells that
    column held are lost.  The labels of a table read by [pd.read_csv]
    are pairwise distinct, so at most one column is concerned. *)
Definition overwritten {K} (name : string) (df : Frame K) : Frame K :=
  match list_find (fun c => c = name) (columns df) with
  | Some (j, _) =>
      {| columns := delete j (columns df);
         rows := (fun r => (r.1, delete j r.2)) <$> rows df |}
  | None => df
  end.

(** Source lines 85-88: the instants are computed from ['timestamp'],
    assigned to ['datetime'] and converted; then ['timestamp'] is dropped.
    The instants are the key of the resulting frame, whose value columns
    are the channels other than an overwritten channel ['datetime'].

    One range [b] stands for the constructor and for the column type:
    where a release stores the column in nanoseconds while
    [pd.Timestamp(n, unit='s')] accepts the calendar range, the run as a
    whole is the one with [b := nanosecond_bounds]. *)
Definition normalize (b : TimestampBounds) (df : DataFrame)
  : result (Frame datetime) :=
  datetimes <- apply (fun t => clr_datetime_to_unix_time b (Some t)) (keys df) ;;
  datetimes <- pd_to_datetime b datetimes ;;
  let df := overwritten "datetime" df in
  Ok {| columns := columns df; rows := zip datetimes (rows df).*2 |}.

(** [csv_files] is what [glob] finds in [folder], [df] is what
    [pd.read_csv(filename)] returns. *)
Definition process_dataframe (b : TimestampBounds) (csv_files : list CsvFile)
    (filename : string) (df : DataFrame) (pred_column : string)
  : M datetime unit :=
  let num_of_columns := length csv_files in
  if negb (len_columns df =? num_of_columns + 1)%nat
  then raise AssertionError
  else
    df <~ lift (trim_valid_range df pred_column) ;;
    df <~ lift (normalize b df) ;;
    emit (ToCsv filename df).

(** ** Aggregator (source line 176: [df.resample(w).agg(['mean','std'])])

    The frame is indexed by calendar time (whole seconds) and its cells
    are numeric. *)

Definition Qsum (xs : list Q) : Q := foldr Qplus 0%Q xs.

(** Stands for the floating-point square root: the root of the
    numerator and denominator scaled to six decimal places. *)
Definition Qsqrt (q : Q) : Q :=
  Qmake (Z.sqrt (Qnum q * Zpos (Qden q) * 10 ^ 12)) (Qden q * 1000000).

Definition mean (xs : list Q) : option Q :=
  match xs with
  | [] => None
  | _ => Some (Qsum xs / inject_Z (Z.of_nat (length xs)))%Q
  end.

(** Sample standard deviation ([ddof=1]): undefined below two samples. *)
Definition std (xs : list Q) : option Q :=
  match mean xs with
  | None => None
  | Some m =>
      if (length xs <=? 1)%nat then None
      else
        let ss := Qsum ((fun x => (x - m) * (x - m))%Q <$> xs) in
        Some (Qsqrt (ss / inject_Z (Z.of_nat (length xs) - 1)))
  end.

Definition seconds_per_day : Z := 86400.

(** Fixed-width bins are anchored at the midnight that starts the day of
    the earliest row ([origin='start_day']) and are closed on the left. *)
Definition bin_origin (times : list Z) : Z :=
  match times with
  | [] => 0
  | t :: ts => foldr Z.min t ts / seconds_per_day * seconds_per_day
  end.

Definition bucket_of (origin width t : Z) : Z := (t - origin) / width.

(** The non-missing values of column [j] among the rows of bucket [bkt]. *)
Definition contributing (origin width : Z) (rs : list (Z * list (option Q)))
    (bkt : Z) (j : nat) : list Q :=
  omap (fun r => mjoin (r.2 !! j))
       (filter (fun r => bucket_of origin width r.1 = bkt) rs).

Record AggRow : Type :=
  { bucket_start : Z;                      (* the bucket's timestamp *)
    stats : list (option Q * option Q) }.  (* per column: mean, std *)

Definition resample_agg (width : Z) (ncols : nat)
    (rs : list (Z * list (option Q))) : list AggRow :=
  match rs.*1 with
  | [] => []
  | t :: ts =>
      let origin := bin_origin (t :: ts) in
      let first := bucket_of origin width (foldr Z.min t ts) in
      let last := bucket_of origin width (foldr Z.max t ts) in
      (fun i =>
         let bkt := first + Z.of_nat i in
         {| bucket_start := origin + bkt * width;
            stats := (fun j => let xs := contributing origin width rs bkt j in
                               (mean xs, std xs)) <$> seq 0 ncols |})
      <$> seq 0 (Z.to_nat (last - first + 1))
  end.

(** ** Coordinate parser (source lines 8-20) *)

Definition digit_value (c : ascii) : option Z :=
  let n := Z.of_N (N_of_ascii c) in
  if (48 <=? n) && (n <=? 57) then Some (n - 48) else None.

Fixpoint digits_value (acc : Z) (s : string) : option Z :=
  match s with
  | EmptyString => Some acc
  | String c rest =>
      match digit_value c with
      | Some d => digits_value (10 * acc + d) rest
      | None => None
      end
  end.

(** The text before the first dot, and the text after it. *)
Fixpoint split_dot (s : string) : string * string :=
  match s with
  | EmptyString => (EmptyString, EmptyString)
  | String c rest =>
      if is_dot c then (EmptyString, rest)
      else let '(ip, fp) := split_dot rest in (String c ip, fp)
  end.

(** [float(s)] on unsigned decimal numerals, the spelling of the
    coordinate fields: digits with at most one dot and at least one
    digit.  Everything else is rejected with [ValueError]; the other
    spellings Python's [float] accepts (sign, exponent, blanks,
    underscores, [inf], [nan]) are not modelled. *)
Definition py_float (s : string) : result Q :=
  let '(ip, fp) := split_dot s in
  if (String.length ip + String.length fp =? 0)%nat then Raise ValueError
  else
    match digits_value 0 ip, digits_value 0 fp with
    | Some i, Some f =>
        Ok (inject_Z i + inject_Z f / inject_Z (10 ^ Z.of_nat (String.length fp)))%Q
    | _, _ => Raise ValueError
    end.

(** [s[-1]]. *)
Definition last_char (s : string) : result ascii :=
  match String.get (String.length s - 1) s with
  | Some c => Ok c
  | None => Raise IndexError
  end.

Definition is_south_or_west (direction : ascii) : bool :=
  Ascii.eqb direction "S"%char || Ascii.eqb direction "W"%char.

Definition dms_string_to_decimal (dms_string : option string)
  : result (option Q) :=
  match dms_string with
  | None => Ok None
  | Some s =>
      degrees <- py_float (substring 0 2 s) ;;
      minutes <- py_float (substring 2 (String.length s - 3) s) ;;
      direction <- last_char s ;;
      let decimal_degrees := (degrees + minutes / 60)%Q in
      Ok (Some (if is_south_or_west direction
                then (- decimal_degrees)%Q else decimal_degrees))
  end.

(** ** Sample inputs *)

Module Samples.

(** Two channels sampled at different instants; the second has a
    missing value. *)
Definition channel_A : CsvFile :=
  {| path := "raw_data/A.csv";
     content := [(0, Some (Num 1)); (10, Some (Num 2)); (20, Some (Num 3))] |}.

Definition channel_B : CsvFile :=
  {| path := "raw_data/B.csv";
     content := [(5, Some (Num 10)); (15, None)] |}.



(** A merged table whose target column [fuelVolumeFlowRate] is missing
    in every row (ticks of 2024-01-01 00:00:00 and 25 seconds later). *)
Definition target_all_missing : DataFrame :=
  {| columns := ["fuelVolumeFlowRate"; "speed"];
     rows := [(638396640000000000, [None; Some (Num 12)]);
              (638396640250000000, [None; None])] |}.

Definition two_files : list CsvFile :=
  [ {| path := "raw_data/fuelVolumeFlowRate.csv"; content := [] |};
    {| path := "raw_data/speed.csv"; content := [] |} ].

(** Channel [A] of scenario A on a calendar index: one sample in each
    of the first three 10-second buckets, none in the fourth. *)
Definition indexed_A : list (Z * list (option Q)) :=
  [(86400, [Some 1%Q]); (86410, [Some 2%Q]); (86420, [Some 3%Q]);
   (86445, [Some 4%Q]); (86447, [Some 6%Q])].

End Samples.

(** ** Shape of a table *)

(** Every row has one cell per value column. *)
Definition rectangular {K} (df : Frame K) : Prop :=
  Forall (fun r => length r.2 = length (columns df)) (rows df).

(** [df] records the series [sources]: it has one column per series, and
    column [i] holds the samples of the [i]-th series and nothing else. *)
Definition records (df : DataFrame) (sources : list (list (Z * cell))) : Prop :=
  length (columns df) = length sources /\
  Forall (fun r => length r.2 = length sources) (rows df) /\
  (forall t cells i v,
      (t, cells) ∈ rows df -> cells !! i = Some (Some v) ->
      exists src, sources !! i = Some src /\ (t, Some v) ∈ src) /\
  (forall i src t c,
      sources !! i = Some src -> (t, c) ∈ src ->
      exists cells, (t, cells) ∈ rows df /\ cells !! i = Some c).

(** ** Summary reporter (source lines 93-98)

    [stats_dataframe] prints, for each column, [df.isna().mean() * 100]:
    the share of its missing cells in percent, which is not a number for
    a table without rows. *)

Definition isna (c : cell) : Q := if notna c then 0%Q else 1%Q.

Definition nan_percentage (col : list cell) : option Q :=
  (fun share => share * 100)%Q <$> mean (isna <$> col).


(** * Properties *)

(** ** Epoch converter *)

Lemma pd_Timestamp_in_bounds b s :
  in_bounds b s -> pd_Timestamp b s = Ok (Timestamp s).
Proof.
  intros [Hlo Hhi]. unfold pd_Timestamp.
  apply Z.leb_le in Hlo, Hhi. now rewrite Hlo, Hhi.
Qed.


Lemma pd_Timestamp_raises b s e :
  pd_Timestamp b s = Raise e -> e = OutOfBoundsDatetime.
Proof.
  unfold pd_Timestamp. destruct (_ && _); congruence.
Qed.

(** With the calendar range of pandas 2.x every tick count a CLR DateTime
    can hold is convertible. *)
Lemma clr_range_in_calendar_bounds t :
  0 <= t <= CLR_MAX_TICKS ->
  in_bounds calendar_bounds ((t - CLR_UNIX_EPOCH_DIFF_TICKS) / 10000000).
Proof.
  unfold CLR_MAX_TICKS, CLR_UNIX_EPOCH_DIFF_TICKS, in_bounds; simpl.
  intros [Hlo Hhi]. split.
  - apply Z.div_le_lower_bound; lia.
  - apply Z.lt_succ_r, Z.div_lt_upper_bound; lia.
Qed.

(** From the Unix epoch onwards the floor division is the truncation of
    the quotient; before it the two differ, and the converter takes the
    floor: the whole second the instant lies in. *)
Lemma whole_seconds_truncate_after_epoch t :
  CLR_UNIX_EPOCH_DIFF_TICKS <= t ->
  (t - CLR_UNIX_EPOCH_DIFF_TICKS) / 10000000
  = Z.quot (t - CLR_UNIX_EPOCH_DIFF_TICKS) 10000000.
Proof. intros Ht. symmetry. apply Z.quot_div_nonneg; lia. Qed.

Example whole_seconds_floor_before_epoch :
  clr_datetime_to_unix_time calendar_bounds (Some 621355967999999999)
  = Ok (Timestamp (-1)).
Proof. reflexivity. Qed.

Lemma pd_Timestamp_Ok b s d :
  pd_Timestamp b s = Ok d -> d = Timestamp s /\ in_bounds b s.
Proof.
  unfold pd_Timestamp, in_bounds.
  destruct (ts_min b <=? s) eqn:Hlo, (s <=? ts_max b) eqn:Hhi; simpl;
    try discriminate.
  intros [= <-]. apply Z.leb_le in Hlo, Hhi. auto.
Qed.

(** A present tick count whose whole-second offset the timestamp type
    accepts is converted to the instant at that offset. *)
Lemma clr_datetime_to_unix_time_in_bounds b t :
  in_bounds b ((t - 621355968000000000) / 10 ^ 7) ->
  clr_datetime_to_unix_time b (Some t)
  = Ok (Timestamp ((t - 621355968000000000) / 10 ^ 7)).
Proof.
  intros Hin. unfold clr_datetime_to_unix_time, CLR_UNIX_EPOCH_DIFF_TICKS.
  change 10000000 with (10 ^ 7). now apply pd_Timestamp_in_bounds.
Qed.




(** C5: the converter is a function of its argument alone (its result
    carries no event) and never fails on a valid tick count: for every
    tick count of a CLR DateTime, [0 .. CLR_MAX_TICKS], it returns a
    calendar instant and raises nothing.  The range of the timestamp type
    is the calendar range. *)
Theorem clr_datetime_to_unix_time_never_fails t :
  0 <= t <= CLR_MAX_TICKS ->
  exists s, clr_datetime_to_unix_time calendar_bounds (Some t)
            = Ok (Timestamp s).
Proof.
  intros Ht. eexists. apply clr_datetime_to_unix_time_in_bounds.
  exact (clr_range_in_calendar_bounds t Ht).
Qed.

(** The first and the last tick count of a CLR DateTime. *)
Lemma clr_datetime_to_unix_time_never_fails_witness :
  (0 <= 0 <= CLR_MAX_TICKS /\
   exists s, clr_datetime_to_unix_time calendar_bounds (Some 0)
             = Ok (Timestamp s)) /\
  (0 <= CLR_MAX_TICKS <= CLR_MAX_TICKS /\
   exists s, clr_datetime_to_unix_time calendar_bounds (Some CLR_MAX_TICKS)
             = Ok (Timestamp s)).
Proof.
  assert (0 <= 0 <= CLR_MAX_TICKS) as Hfirst.
  { split; apply Z.leb_le; reflexivity. }
  assert (0 <= CLR_MAX_TICKS <= CLR_MAX_TICKS) as Hlast.
  { split; apply Z.leb_le; reflexivity. }
  split.
  - split; [exact Hfirst|].
    apply (clr_datetime_to_unix_time_never_fails 0 Hfirst).
  - split; [exact Hlast|].
    apply (clr_datetime_to_unix_time_never_fails CLR_MAX_TICKS Hlast).
Defined.

(** ** Valid-range trimmer *)

Lemma first_valid_index_None col :
  first_valid_index col = None <-> Forall (fun c => c = None) col.
Proof.
  induction col as [|c rest IH]; simpl.
  - split; [constructor | reflexivity].
  - destruct c as [v|]; simpl.
    + split; [discriminate | inversion 1; discriminate].
    + rewrite fmap_None, IH. split; [now constructor | now inversion 1].
Qed.

Lemma last_valid_index_None col :
  last_valid_index col = None <-> Forall (fun c => c = None) col.
Proof.
  induction col as [|c rest IH]; simpl.
  - split; [constructor | reflexivity].
  - destruct (last_valid_index rest) as [i|].
    + split; [discriminate |].
      inversion 1; subst. destruct IH as [_ IH]. now specialize (IH ltac:(assumption)).
    + destruct c as [v|]; simpl.
      * split; [discriminate | inversion 1; discriminate].
      * split; [constructor; [reflexivity | now apply IH] | reflexivity].
Qed.

Lemma first_valid_index_Some col i :
  first_valid_index col = Some i ->
  exists c rest, drop i col = c :: rest /\ notna c = true.
Proof.
  revert i. induction col as [|c rest IH]; simpl; intros i Hi; [discriminate|].
  destruct (notna c) eqn:Hc.
  - inversion Hi; subst. now exists c, rest.
  - destruct (first_valid_index rest) as [i'|]; [|discriminate].
    inversion Hi; subst. simpl. now apply IH.
Qed.

Lemma last_valid_index_take col j :
  last_valid_index col = Some j ->
  last_valid_index (take (S j) col) = Some j.
Proof.
  revert j. induction col as [|c rest IH]; intros j; [discriminate|].
  simpl. destruct (last_valid_index rest) as [i|] eqn:Hrest.
  - intros [= <-]. now rewrite (IH i eq_refl).
  - destruct c as [v|]; simpl; [|discriminate].
    intros [= <-]. now rewrite take_0.
Qed.

(** A column read off a frame is the image of the frame's rows under a
    function fixed by the column labels; a missing label is a [KeyError]
    whatever the rows are. *)
Lemma getitem_rows cols name :
  (exists f, forall rs,
      getitem {| columns := cols; rows := rs |} name = Ok (f <$> rs)) \/
  (forall rs, getitem {| columns := cols; rows := rs |} name = Raise KeyError).
Proof.
  unfold getitem; simpl. destruct (decide (name = "timestamp")).
  - left. now eexists.
  - destruct (list_find _ cols) as [[j ?]|].
    + left. now eexists.
    + now right.
Qed.

Lemma getitem_raises df name e : getitem df name = Raise e -> e = KeyError.
Proof.
  unfold getitem. destruct (decide _); [discriminate|].
  destruct (list_find _ _) as [[j ?]|]; congruence.
Qed.

(** What the trimmer does to the rows, given the target column [f <$> rs]. *)
Lemma trim_valid_range_rows cols name f rs :
  (forall rs', getitem {| columns := cols; rows := rs' |} name = Ok (f <$> rs')) ->
  trim_valid_range {| columns := cols; rows := rs |} name =
    Ok match first_valid_index (f <$> rs) with
       | Some i =>
           match last_valid_index (f <$> drop i rs) with
           | Some j => {| columns := cols; rows := take (S j) (drop i rs) |}
           | None => {| columns := cols; rows := drop i rs |}
           end
       | None =>
           match last_valid_index (f <$> rs) with
           | Some j => {| columns := cols; rows := take (S j) rs |}
           | None => {| columns := cols; rows := rs |}
           end
       end.
Proof.
  intros Hget. unfold trim_valid_range. rewrite Hget. simpl.
  destruct (first_valid_index (f <$> rs)) as [i|]; unfold loc_from; simpl;
    rewrite Hget; simpl.
  - now destruct (last_valid_index _).
  - now destruct (last_valid_index _).
Qed.

Lemma trim_valid_range_raises df name e :
  trim_valid_range df name = Raise e -> e = KeyError.
Proof.
  destruct df as [cols rs].
  destruct (getitem_rows cols name) as [[f Hf]|Hf].
  - rewrite (trim_valid_range_rows _ _ f) by assumption. discriminate.
  - unfold trim_valid_range. rewrite Hf. simpl. congruence.
Qed.

(** C7: trimming is idempotent.  Running the trimmer on its own output,
    with the same target column, returns that output again; when the
    target column does not exist both runs raise the same [KeyError]. *)
Theorem trim_valid_range_idempotent (df : DataFrame) (pred_column : string) :
  (trimmed <- trim_valid_range df pred_column ;;
   trim_valid_range trimmed pred_column)
  = trim_valid_range df pred_column.
Proof.
  destruct df as [cols rs].
  destruct (getitem_rows cols pred_column) as [[f Hf]|Hf].
  - rewrite (trim_valid_range_rows _ _ f rs Hf). simpl.
    destruct (first_valid_index (f <$> rs)) as [i|] eqn:Hfirst.
    + destruct (first_valid_index_Some _ _ Hfirst) as (c & rest & Hdrop & Hc).
      rewrite <- fmap_drop in Hdrop.
      destruct (last_valid_index (f <$> drop i rs)) as [j|] eqn:Hlast.
      * rewrite (trim_valid_range_rows _ _ f _ Hf).
        set (rs' := take (S j) (drop i rs)).
        assert (first_valid_index (f <$> rs') = Some 0%nat) as Hfirst'.
        { subst rs'. rewrite fmap_take, Hdrop. simpl. now rewrite Hc. }
        assert (last_valid_index (f <$> rs') = Some j) as Hlast'.
        { subst rs'. rewrite fmap_take. now apply last_valid_index_take. }
        rewrite Hfirst', drop_0, Hlast'. subst rs'. now rewrite take_idemp.
      * apply last_valid_index_None in Hlast. rewrite Hdrop in Hlast.
        inversion Hlast; subst. discriminate.
    + assert (last_valid_index (f <$> rs) = None) as Hlast.
      { now apply last_valid_index_None, first_valid_index_None. }
      rewrite Hlast. rewrite (trim_valid_range_rows _ _ f rs Hf).
      now rewrite Hfirst, Hlast.
  - unfold trim_valid_range. now rewrite Hf.
Qed.

Lemma apply_clr_in_bounds b ts :
  Forall (fun t => in_bounds b ((t - CLR_UNIX_EPOCH_DIFF_TICKS) / 10000000)) ts ->
  apply (fun t => clr_datetime_to_unix_time b (Some t)) ts
  = Ok ((fun t => Timestamp ((t - CLR_UNIX_EPOCH_DIFF_TICKS) / 10000000)) <$> ts).
Proof.
  induction 1 as [|t ts Hin _ IH]; [reflexivity|].
  cbn [apply].
  change (clr_datetime_to_unix_time b (Some t))
      with (pd_Timestamp b ((t - CLR_UNIX_EPOCH_DIFF_TICKS) / 10000000)).
  rewrite (pd_Timestamp_in_bounds _ _ Hin). cbn [result_bind].
  now rewrite IH.
Qed.

Lemma apply_clr_Ok b ts ds :
  apply (fun t => clr_datetime_to_unix_time b (Some t)) ts = Ok ds ->
  ds = (fun t => Timestamp ((t - CLR_UNIX_EPOCH_DIFF_TICKS) / 10000000)) <$> ts.
Proof.
  revert ds. induction ts as [|t ts IH]; intros ds; cbn [apply].
  - now intros [= <-].
  - change (clr_datetime_to_unix_time b (Some t))
      with (pd_Timestamp b ((t - CLR_UNIX_EPOCH_DIFF_TICKS) / 10000000)).
    destruct (pd_Timestamp b _) as [d|e] eqn:Hd; cbn [result_bind];
      [|discriminate].
    destruct (apply _ ts) as [ds'|e] eqn:Hds; cbn [result_bind];
      [|discriminate].
    intros [= <-]. apply pd_Timestamp_Ok in Hd as [-> _].
    now rewrite (IH ds' eq_refl).
Qed.

Lemma apply_clr_out_of_bounds b ts :
  Exists (fun t => ~ in_bounds b ((t - CLR_UNIX_EPOCH_DIFF_TICKS) / 10000000)) ts ->
  apply (fun t => clr_datetime_to_unix_time b (Some t)) ts
  = Raise OutOfBoundsDatetime.
Proof.
  induction ts as [|t ts IH]; intros Hex; [now apply Exists_nil in Hex|].
  cbn [apply].
  change (clr_datetime_to_unix_time b (Some t))
      with (pd_Timestamp b ((t - CLR_UNIX_EPOCH_DIFF_TICKS) / 10000000)).
  destruct (pd_Timestamp b _) as [d|e] eqn:Hd; cbn [result_bind].
  - apply pd_Timestamp_Ok in Hd as [_ Hin].
    apply Exists_cons in Hex as [Hout|Hex]; [contradiction|].
    now rewrite (IH Hex).
  - now apply pd_Timestamp_raises in Hd as ->.
Qed.

Lemma zip_fmap_keys {A B C} (g : A -> C) (rs : list (A * B)) :
  zip (g <$> rs.*1) rs.*2 = (fun r => (g r.1, r.2)) <$> rs.
Proof.
  induction rs as [|[a c] rs IH]; [reflexivity|].
  simpl in *. f_equal. exact IH.
Qed.

Lemma pd_to_datetime_apply_clr b ts ds :
  apply (fun t => clr_datetime_to_unix_time b (Some t)) ts = Ok ds ->
  pd_to_datetime b ds = Ok ds.
Proof.
  revert ds. induction ts as [|t ts IH]; intros ds; cbn [apply].
  - now intros [= <-].
  - change (clr_datetime_to_unix_time b (Some t))
      with (pd_Timestamp b ((t - CLR_UNIX_EPOCH_DIFF_TICKS) / 10000000)).
    destruct (pd_Timestamp b _) as [d|e] eqn:Hd; cbn [result_bind];
      [|discriminate].
    destruct (apply _ ts) as [ds'|e] eqn:Hds; cbn [result_bind];
      [|discriminate].
    intros [= <-]. apply pd_Timestamp_Ok in Hd as [-> Hin].
    unfold pd_to_datetime. cbn [apply].
    rewrite (pd_Timestamp_in_bounds _ _ Hin). cbn [result_bind].
    fold (pd_to_datetime b ds'). now rewrite (IH ds' eq_refl).
Qed.

(** The conversion of line 86 never fails after that of line 85, which
    remains the one step of the normalisation that can raise. *)
Lemma normalize_eq b df :
  normalize b df
  = (datetimes <- apply (fun t => clr_datetime_to_unix_time b (Some t))
                        (keys df) ;;
     Ok {| columns := columns (overwritten "datetime" df);
           rows := zip datetimes (rows (overwritten "datetime" df)).*2 |}).
Proof.
  unfold normalize.
  destruct (apply _ (keys df)) as [ds|e] eqn:Hds; cbn [result_bind];
    [|reflexivity].
  now rewrite (pd_to_datetime_apply_clr _ _ _ Hds).
Qed.

Lemma overwritten_absent {K} name (df : Frame K) :
  name ∉ columns df -> overwritten name df = df.
Proof.
  intros Hnot. unfold overwritten.
  destruct (list_find _ (columns df)) as [[j c]|] eqn:Hfind; [|reflexivity].
  apply list_find_Some in Hfind as (Hc & -> & _).
  exfalso. apply Hnot. eapply list_elem_of_lookup_2; eauto.
Qed.

Lemma overwritten_keys {K} name (df : Frame K) :
  keys (overwritten name df) = keys df.
Proof.
  unfold overwritten, keys.
  destruct (list_find _ (columns df)) as [[j c]|]; [|reflexivity].
  cbn [rows]. rewrite <- list_fmap_compose. now apply list_fmap_ext.
Qed.

Lemma normalize_raises b df e :
  normalize b df = Raise e -> e = OutOfBoundsDatetime.
Proof.
  rewrite normalize_eq.
  assert (forall l e, apply (fun t => clr_datetime_to_unix_time b (Some t)) l
                      = Raise e -> e = OutOfBoundsDatetime) as Happly.
  { clear. induction l as [|t l IH]; simpl; intros e; [discriminate|].
    destruct (pd_Timestamp b _) eqn:Hts; simpl.
    - destruct (apply _ l) eqn:Hl; simpl; [discriminate|].
      intros [= <-]. now apply IH.
    - intros [= <-]. now apply pd_Timestamp_raises in Hts. }
  destruct (apply _ (keys df)) eqn:Hk; simpl; [discriminate|].
  intros [= <-]. now apply Happly in Hk.
Qed.

(** C6: [process_dataframe] fails with an [AssertionError] exactly when
    the table's column count differs from the number of input files plus
    one, and then nothing has been written: the run stops at the check.
    When the counts agree the run goes on and no [AssertionError] is
    raised. *)
Theorem process_dataframe_assertion b csv_files filename df pred_column :
  let run := process_dataframe b csv_files filename df pred_column in
  (run.2 = Raise AssertionError
   <-> len_columns df <> (length csv_files + 1)%nat) /\
  (run = ([], Raise AssertionError)
   <-> len_columns df <> (length csv_files + 1)%nat).
Proof.
  intros run.
  destruct (len_columns df =? length csv_files + 1)%nat eqn:Hlen.
  - assert (run.2 <> Raise AssertionError) as Hrun.
    { subst run. unfold process_dataframe. rewrite Hlen. simpl.
      destruct (trim_valid_range df pred_column) as [df'|e] eqn:Htrim; simpl.
      - destruct (normalize b df') as [out|e] eqn:Hnorm; simpl.
        + discriminate.
        + apply normalize_raises in Hnorm. congruence.
      - apply trim_valid_range_raises in Htrim. congruence. }
    apply Nat.eqb_eq in Hlen. split; (split; [|easy]).
    + intros Hr. now destruct Hrun.
    + intros Hr. rewrite Hr in Hrun. now destruct Hrun.
  - subst run. unfold process_dataframe. rewrite Hlen. simpl.
    apply Nat.eqb_neq in Hlen. easy.
Qed.

(** ** Zero input files *)

(** C9: with no CSV file in the folder [create_dataframe] raises the
    [IndexError] of [dataframes[0]]; nothing has been written or printed
    by then, and there is no result. *)
Theorem create_dataframe_no_files output_file :
  create_dataframe [] output_file = ([], Raise IndexError).
Proof. reflexivity. Qed.

(** C4, as the spec states it, fails: on a table whose target column is
    missing everywhere the trimmer returns the table unchanged and the
    run succeeds, but the only event is the final write; nothing is
    printed or signalled. *)
Lemma all_missing_target_gives_no_warning :
  let run := process_dataframe nanosecond_bounds Samples.two_files "final.csv"
               Samples.target_all_missing "fuelVolumeFlowRate" in
  trim_valid_range Samples.target_all_missing "fuelVolumeFlowRate"
    = Ok Samples.target_all_missing /\
  run.2 = Ok tt /\
  ~ (exists msg, Print msg ∈ run.1).
Proof.
  split; [reflexivity | split; [reflexivity |]].
  intros [msg Hin]. vm_compute in Hin.
  apply list_elem_of_singleton in Hin. discriminate Hin.
Qed.

(** C4 (amended): when the target column has no non-missing value, the
    trimmer returns the table unchanged, through the two [None] branches,
    and raises nothing; no warning is emitted: the only event
    [process_dataframe] ever produces is the write of its output file. *)
Theorem trim_valid_range_all_missing b csv_files filename df pred_column col :
  getitem df pred_column = Ok col ->
  Forall (fun c => c = None) col ->
  trim_valid_range df pred_column = Ok df /\
  forall ev, ev ∈ (process_dataframe b csv_files filename df pred_column).1 ->
             exists out, ev = ToCsv filename out.
Proof.
  intros Hcol Hmissing. split.
  - unfold trim_valid_range. rewrite Hcol. simpl.
    rewrite (proj2 (first_valid_index_None col) Hmissing).
    rewrite Hcol. simpl.
    now rewrite (proj2 (last_valid_index_None col) Hmissing).
  - intros ev. unfold process_dataframe.
    destruct (negb _); simpl; [now intros ?%elem_of_nil|].
    destruct (trim_valid_range df pred_column) as [df'|e]; simpl;
      [|now intros ?%elem_of_nil].
    destruct (normalize b df') as [out|e]; simpl; [|now intros ?%elem_of_nil].
    intros ->%list_elem_of_singleton. now exists out.
Qed.

Lemma trim_valid_range_all_missing_witness :
  getitem Samples.target_all_missing "fuelVolumeFlowRate" = Ok [None; None] /\
  Forall (fun c : cell => c = None) [None; None] /\
  trim_valid_range Samples.target_all_missing "fuelVolumeFlowRate"
    = Ok Samples.target_all_missing.
Proof.
  split; [reflexivity | split; [repeat constructor |]].
  apply (trim_valid_range_all_missing nanosecond_bounds Samples.two_files
           "final.csv" Samples.target_all_missing "fuelVolumeFlowRate"
           [None; None]).
  - reflexivity.
  - repeat constructor.
Defined.

(** ** Timeline merger *)

Lemma keys_merge_sort {A} (rs : list (Z * A)) (k : Z) :
  k ∈ (merge_sort key_le rs).*1 <-> k ∈ rs.*1.
Proof. now rewrite merge_sort_Permutation. Qed.

Lemma sorted_keys_merge_sort {A} (rs : list (Z * A)) :
  Sorted Z.le (merge_sort key_le rs).*1.
Proof.
  apply Sorted_fmap with (R1 := key_le).
  - now intros r1 r2.
  - apply Sorted_merge_sort, _.
Qed.

Lemma has_key_true {A} (k : Z) (rs : list (Z * A)) :
  has_key k rs = true <-> k ∈ rs.*1.
Proof.
  unfold has_key. induction rs as [|r rs IH]; simpl.
  - rewrite elem_of_nil. split; [discriminate | tauto].
  - rewrite elem_of_cons, orb_true_iff, IH, Z.eqb_eq.
    split; (intros [Heq|Hin]; [left; congruence | now right]).
Qed.

Lemma join_left_keys wr right l row :
  row ∈ join_left wr right l -> row.1 = l.1.
Proof.
  unfold join_left.
  destruct (filter _ right) as [|r0 matches].
  - now intros ->%list_elem_of_singleton.
  - intros (r & -> & _)%list_elem_of_fmap. reflexivity.
Qed.

Lemma join_left_nonempty wr right l :
  exists row, row ∈ join_left wr right l.
Proof.
  unfold join_left.
  destruct (filter _ right) as [|r0 matches].
  - eexists. apply list_elem_of_singleton. reflexivity.
  - eexists. rewrite fmap_cons. apply elem_of_cons. now left.
Qed.

(** An outer join has exactly the keys of its two operands. *)
Lemma outer_join_rows_keys wl wr left right k :
  k ∈ (outer_join_rows wl wr left right).*1 <-> k ∈ left.*1 \/ k ∈ right.*1.
Proof.
  unfold outer_join_rows, join_right_only.
  rewrite fmap_app, elem_of_app. split.
  - intros [Hl|Hr].
    + apply list_elem_of_fmap in Hl as (row & -> & Hrow).
      apply list_elem_of_bind in Hrow as (l & Hrow & Hl).
      left. rewrite (join_left_keys _ _ _ _ Hrow).
      now apply list_elem_of_fmap_2.
    + apply list_elem_of_fmap in Hr as (row & -> & Hrow).
      apply list_elem_of_fmap in Hrow as (r & -> & Hr).
      apply list_elem_of_filter in Hr as [_ Hr].
      right. simpl. now apply list_elem_of_fmap_2.
  - assert (k ∈ left.*1 -> k ∈ (left ≫= join_left wr right).*1) as Hleft.
    { intros (l & -> & Hl)%list_elem_of_fmap.
      destruct (join_left_nonempty wr right l) as [row Hrow].
      rewrite <- (join_left_keys _ _ _ _ Hrow).
      apply list_elem_of_fmap_2, list_elem_of_bind. eauto. }
    intros [Hl|Hr]; [left; now apply Hleft|].
    destruct (has_key k left) eqn:Hk.
    + left. now apply Hleft, has_key_true.
    + right. apply list_elem_of_fmap in Hr as (r & -> & Hr).
      apply list_elem_of_fmap. eexists. split; [|apply list_elem_of_fmap_2].
      2:{ apply list_elem_of_filter. split; [exact Hk | exact Hr]. }
      reflexivity.
Qed.

Lemma merge_outer_keys left right k :
  k ∈ keys (merge_outer left right) <-> k ∈ keys left \/ k ∈ keys right.
Proof.
  unfold keys, merge_outer. simpl.
  now rewrite keys_merge_sort, outer_join_rows_keys.
Qed.

Lemma foldl_merge_outer_keys dfs first k :
  k ∈ keys (foldl merge_outer first dfs) <->
  k ∈ keys first \/ exists df, df ∈ dfs /\ k ∈ keys df.
Proof.
  revert first. induction dfs as [|df dfs IH]; intros first; simpl.
  - split; [now left|]. intros [Hk|(df & Hdf & _)]; [assumption|].
    now apply elem_of_nil in Hdf.
  - rewrite IH, merge_outer_keys. split.
    + intros [[?|?]|(df' & ? & ?)]; [now left | right | right].
      * exists df. split; [apply elem_of_cons; now left | assumption].
      * exists df'. split; [apply elem_of_cons; now right | assumption].
    + intros [?|(df' & [->|?]%elem_of_cons & ?)].
      * left; now left.
      * left; now right.
      * right. now exists df'.
Qed.

(** Loading succeeds when no file derives the name of the key column;
    every loaded series has the timestamps of its file. *)
Lemma load_all_keys csv_files :
  Forall (fun file => column_name_of file <> "timestamp") csv_files ->
  exists dfs, load_all csv_files = Ok dfs /\
              keys <$> dfs = (fun file => (content file).*1) <$> csv_files.
Proof.
  induction 1 as [|file rest Hname _ (dfs & Hload & Hkeys)]; simpl.
  - now exists [].
  - unfold read_csv_named. destruct (decide _) as [|_]; [contradiction|].
    simpl. rewrite Hload. simpl. eexists. split; [reflexivity|].
    rewrite fmap_cons, Hkeys. f_equal.
    unfold keys. simpl. rewrite <- list_fmap_compose.
    apply list_fmap_ext. now intros i [t v] _.
Qed.

(** C2: for every non-empty set of input files that load, the merged
    table [create_dataframe] writes has as timestamps exactly the
    timestamps occurring in some input series, whether the value beside
    them is present or missing, and its rows are in ascending timestamp
    order. *)
Theorem create_dataframe_timestamps csv_files output_file :
  csv_files <> [] ->
  Forall (fun file => column_name_of file <> "timestamp") csv_files ->
  exists merged_df,
    create_dataframe csv_files output_file
      = ([ToCsv output_file merged_df;
          Print ("Concatenated CSV file saved to " +:+ output_file)], Ok tt) /\
    (forall t, t ∈ keys merged_df <->
               exists file, file ∈ csv_files /\ t ∈ (content file).*1) /\
    Sorted Z.le (keys merged_df).
Proof.
  intros Hne Hnames.
  destruct (load_all_keys csv_files Hnames) as (dfs & Hload & Hkeys).
  unfold create_dataframe. rewrite Hload.
  destruct dfs as [|first dfs].
  { destruct csv_files; [contradiction | discriminate Hkeys]. }
  simpl. eexists. split; [reflexivity|]. split.
  - intros t. unfold keys at 1, sort_values. simpl.
    rewrite keys_merge_sort. fold (keys (foldl merge_outer first dfs)).
    rewrite foldl_merge_outer_keys.
    assert (forall l : list Z, l ∈ keys <$> (first :: dfs) <->
              l ∈ (fun file => (content file).*1) <$> csv_files) as Hsame
      by (intros l; now rewrite Hkeys).
    split.
    + intros Hin.
      assert (exists df, df ∈ first :: dfs /\ t ∈ keys df) as (df & Hdf & Ht).
      { destruct Hin as [?|(df & ? & ?)].
        - exists first. split; [apply elem_of_cons; now left | assumption].
        - exists df. split; [apply elem_of_cons; now right | assumption]. }
      apply (list_elem_of_fmap_2 keys) in Hdf.
      apply Hsame, list_elem_of_fmap in Hdf as (file & Heq & Hfile).
      exists file. split; [assumption | now rewrite <- Heq].
    + intros (file & Hfile & Ht).
      apply (list_elem_of_fmap_2 (fun file => (content file).*1)) in Hfile.
      apply Hsame, list_elem_of_fmap in Hfile as (df & Heq & Hdf).
      rewrite Heq in Ht.
      apply elem_of_cons in Hdf as [->|Hdf]; [now left | right; eauto].
  - unfold keys, sort_values. simpl. apply sorted_keys_merge_sort.
Qed.

Lemma create_dataframe_timestamps_witness :
  [Samples.channel_A; Samples.channel_B] <> [] /\
  Forall (fun file => column_name_of file <> "timestamp")
         [Samples.channel_A; Samples.channel_B] /\
  exists merged_df,
    create_dataframe [Samples.channel_A; Samples.channel_B] "final.csv"
      = ([ToCsv "final.csv" merged_df;
          Print ("Concatenated CSV file saved to " +:+ "final.csv")], Ok tt) /\
    (forall t, t ∈ keys merged_df <->
               exists file, file ∈ [Samples.channel_A; Samples.channel_B] /\
                            t ∈ (content file).*1) /\
    Sorted Z.le (keys merged_df).
Proof.
  assert (Forall (fun file => column_name_of file <> "timestamp")
                 [Samples.channel_A; Samples.channel_B]) as Hnames.
  { repeat constructor; vm_compute; discriminate. }
  split; [discriminate | split; [exact Hnames |]].
  apply (create_dataframe_timestamps [Samples.channel_A; Samples.channel_B]
           "final.csv"); [discriminate | exact Hnames].
Defined.

(** ** Aggregator *)

Lemma mean_nil : mean [] = None.
Proof. reflexivity. Qed.

Lemma std_nil : std [] = None.
Proof. reflexivity. Qed.

Lemma mean_singleton x : mean [x] = Some x.
Proof.
  unfold mean, Qsum. simpl. f_equal.
  destruct x as [n d]. unfold Qdiv, Qmult, Qplus, Qinv. simpl.
  f_equal; lia.
Qed.

Lemma std_singleton x : std [x] = None.
Proof. unfold std. now rewrite mean_singleton. Qed.

Lemma bucket_of_start origin width bkt :
  0 < width -> bucket_of origin width (origin + bkt * width) = bkt.
Proof.
  intros Hw. unfold bucket_of.
  replace (origin + bkt * width - origin) with (bkt * width) by lia.
  apply Z.div_mul. lia.
Qed.

Lemma bucket_of_bounds origin width t :
  0 < width ->
  origin + bucket_of origin width t * width <= t
  < origin + bucket_of origin width t * width + width.
Proof.
  intros Hw. unfold bucket_of.
  pose proof (Z.div_mod (t - origin) width ltac:(lia)) as Hdm.
  pose proof (Z.mod_pos_bound (t - origin) width Hw) as Hmod.
  set (q := (t - origin) / width) in *.
  set (r := (t - origin) mod width) in *. clearbody q r. nia.
Qed.

Lemma bucket_interval_unique origin width k1 k2 t :
  0 < width ->
  origin + k1 * width <= t < origin + k1 * width + width ->
  origin + k2 * width <= t < origin + k2 * width + width ->
  k1 = k2.
Proof. intros Hw H1 H2. nia. Qed.

(** A time lies in the interval of a bucket exactly when it is assigned
    to that bucket. *)
Lemma in_bucket_iff origin width bkt t :
  0 < width ->
  origin + bkt * width <= t < origin + bkt * width + width
  <-> bucket_of origin width t = bkt.
Proof.
  intros Hw. pose proof (bucket_of_bounds origin width t Hw) as Ht. split.
  - intros Hin. exact (bucket_interval_unique _ _ _ _ _ Hw Ht Hin).
  - now intros <-.
Qed.

(** The statistics of a row are those of the values of its bucket. *)
Lemma resample_agg_stats width ncols rs row j m s :
  row ∈ resample_agg width ncols rs ->
  stats row !! j = Some (m, s) ->
  exists origin bkt,
    bucket_start row = origin + bkt * width /\
    m = mean (contributing origin width rs bkt j) /\
    s = std (contributing origin width rs bkt j).
Proof.
  intros Hrow Hstats. unfold resample_agg in Hrow.
  destruct (rs.*1) as [|t ts] eqn:Htimes; [now apply elem_of_nil in Hrow|].
  apply list_elem_of_fmap in Hrow as (i & -> & _).
  cbn [bucket_start stats] in *.
  apply list_lookup_fmap_Some in Hstats as (j' & Hms & Hj').
  apply lookup_seq in Hj' as [-> _]. cbn beta zeta in Hms.
  injection Hms as -> ->. simpl. eauto.
Qed.

(** What a row adds to the values of a bucket: its [j]-th cell, when
    the row is of that bucket and the cell is not missing. *)
Lemma contributing_cons origin width r rs bkt j :
  contributing origin width (r :: rs) bkt j
  = (if decide (bucket_of origin width r.1 = bkt)
     then match r.2 !! j with Some (Some x) => [x] | _ => [] end
     else [])
    ++ contributing origin width rs bkt j.
Proof.
  unfold contributing. rewrite filter_cons.
  destruct (decide (bucket_of origin width r.1 = bkt)); [|reflexivity].
  cbn [omap list_omap]. now destruct (r.2 !! j) as [[x|]|].
Qed.

Lemma contributing_app origin width rs1 rs2 bkt j :
  contributing origin width (rs1 ++ rs2) bkt j
  = contributing origin width rs1 bkt j ++ contributing origin width rs2 bkt j.
Proof.
  induction rs1 as [|r rs1 IH]; [reflexivity|].
  rewrite <- app_comm_cons, !contributing_cons, IH. now rewrite app_assoc.
Qed.

Lemma contributing_nil origin width rs bkt j :
  contributing origin width rs bkt j = []
  <-> forall r x, r ∈ rs -> bucket_of origin width r.1 = bkt ->
                  r.2 !! j <> Some (Some x).
Proof.
  induction rs as [|r rs IH].
  - split; [|reflexivity]. now intros _ r x ?%elem_of_nil.
  - rewrite contributing_cons. split.
    + intros [Hr Hrs]%app_eq_nil r' x [->|Hin]%elem_of_cons Hbkt.
      * destruct (decide _); [|contradiction].
        intros Hx. rewrite Hx in Hr. discriminate.
      * now apply (proj1 IH Hrs).
    + intros Hall. apply app_nil. split.
      * destruct (decide _) as [Hbkt|]; [|reflexivity].
        destruct (r.2 !! j) as [[x|]|] eqn:Hx; try reflexivity.
        exfalso. apply (Hall r x); [apply elem_of_cons; now left | exact Hbkt |].
        exact Hx.
      * apply IH. intros r' x Hin. apply Hall, elem_of_cons. now right.
Qed.

(** At least two values: two rows of the bucket, at different positions,
    have a value. *)
Lemma contributing_two origin width rs bkt j :
  (2 <= length (contributing origin width rs bkt j))%nat
  <-> exists i k r1 r2 x1 x2,
        (i < k)%nat /\ rs !! i = Some r1 /\ rs !! k = Some r2 /\
        bucket_of origin width r1.1 = bkt /\ r1.2 !! j = Some (Some x1) /\
        bucket_of origin width r2.1 = bkt /\ r2.2 !! j = Some (Some x2).
Proof.
  induction rs as [|r rs IH].
  - simpl. split; [lia|]. intros (i & k & r1 & r2 & x1 & x2 & _ & H & _).
    discriminate H.
  - rewrite contributing_cons. split.
    + intros Hlen.
      destruct (decide (bucket_of origin width r.1 = bkt)) as [Hbkt|];
        [destruct (r.2 !! j) as [[x|]|] eqn:Hx|].
      * destruct (contributing origin width rs bkt j) as [|y ys] eqn:Hrs;
          [simpl in Hlen; lia|].
        assert (~ (forall r' x', r' ∈ rs -> bucket_of origin width r'.1 = bkt ->
                                 r'.2 !! j <> Some (Some x'))) as Hsome.
        { intros Hall. apply contributing_nil in Hall. congruence. }
        assert (exists k r2 x2, rs !! k = Some r2 /\
                  bucket_of origin width r2.1 = bkt /\
                  r2.2 !! j = Some (Some x2)) as (k & r2 & x2 & Hk & Hb2 & Hx2).
        { clear -Hsome. induction rs as [|r' rs IH].
          - exfalso. apply Hsome. now intros r x ?%elem_of_nil.
          - destruct (decide (bucket_of origin width r'.1 = bkt)) as [Hb|Hb].
            + destruct (r'.2 !! j) as [[x|]|] eqn:Hx.
              * exists 0%nat, r', x. auto.
              * destruct IH as (k & r2 & x2 & Hk & H2).
                { intros Hall. apply Hsome.
                  intros r x [->|Hin]%elem_of_cons; [congruence | eauto]. }
                exists (S k), r2, x2. auto.
              * destruct IH as (k & r2 & x2 & Hk & H2).
                { intros Hall. apply Hsome.
                  intros r x [->|Hin]%elem_of_cons; [congruence | eauto]. }
                exists (S k), r2, x2. auto.
            + destruct IH as (k & r2 & x2 & Hk & H2).
              { intros Hall. apply Hsome.
                intros r x [->|Hin]%elem_of_cons; [contradiction | eauto]. }
              exists (S k), r2, x2. auto. }
        exists 0%nat, (S k), r, r2, x, x2.
        repeat split; auto; lia.
      * apply IH in Hlen as (i & k & r1 & r2 & x1 & x2 & Hlt & Hi & Hk & H).
        exists (S i), (S k), r1, r2, x1, x2. repeat split; try tauto; lia.
      * apply IH in Hlen as (i & k & r1 & r2 & x1 & x2 & Hlt & Hi & Hk & H).
        exists (S i), (S k), r1, r2, x1, x2. repeat split; try tauto; lia.
      * apply IH in Hlen as (i & k & r1 & r2 & x1 & x2 & Hlt & Hi & Hk & H).
        exists (S i), (S k), r1, r2, x1, x2. repeat split; try tauto; lia.
    + intros (i & k & r1 & r2 & x1 & x2 & Hlt & Hi & Hk & Hb1 & Hx1 & Hb2 & Hx2).
      rewrite length_app.
      destruct k as [|k]; [lia|]. cbn in Hk.
      destruct i as [|i]; cbn in Hi.
      * injection Hi as ->. rewrite decide_True by exact Hb1. rewrite Hx1.
        assert (contributing origin width rs bkt j <> []) as Hne.
        { intros Hnil. apply (proj1 (contributing_nil _ _ _ _ _) Hnil r2 x2);
            [eapply list_elem_of_lookup_2; eauto | exact Hb2 | exact Hx2]. }
        destruct (contributing origin width rs bkt j); [congruence|].
        simpl. lia.
      * assert (2 <= length (contributing origin width rs bkt j))%nat.
        { apply IH. exists i, k, r1, r2, x1, x2. repeat split; auto; lia. }
        lia.
Qed.

(** C3: in every aggregated table, for every bucket row and every
    channel [j]: if no input row whose time lies in the bucket has a
    value of the channel, both the mean and the standard deviation are
    missing; if exactly one input row of the bucket has a value [x] of the
    channel, the mean is [x] and the standard deviation is missing.  The
    bucket of a row is the interval of width [width] that starts at its
    timestamp. *)
Theorem resample_agg_sparse_bucket width ncols rs row j m s :
  0 < width ->
  row ∈ resample_agg width ncols rs ->
  stats row !! j = Some (m, s) ->
  let in_bucket (t : Z) :=
    bucket_start row <= t < bucket_start row + width in
  ((forall t cells x,
       (t, cells) ∈ rs -> in_bucket t -> cells !! j <> Some (Some x)) ->
   m = None /\ s = None) /\
  (forall before t cells after x,
      rs = before ++ (t, cells) :: after ->
      in_bucket t ->
      cells !! j = Some (Some x) ->
      (forall t' cells' x',
          (t', cells') ∈ before ++ after -> in_bucket t' ->
          cells' !! j <> Some (Some x')) ->
      m = Some x /\ s = None).
Proof.
  intros Hw Hrow Hstats in_bucket.
  destruct (resample_agg_stats _ _ _ _ _ _ _ Hrow Hstats)
    as (origin & bkt & Hstart & -> & ->).
  subst in_bucket. rewrite Hstart. split.
  - intros Hnone.
    assert (contributing origin width rs bkt j = []) as ->.
    { apply contributing_nil. intros [t cells] x Hin Hbkt.
      apply (Hnone t cells x Hin). now apply in_bucket_iff. }
    now rewrite mean_nil, std_nil.
  - intros before t cells after x -> Hin Hx Hothers.
    assert (contributing origin width (before ++ after) bkt j = []) as Hnil.
    { apply contributing_nil. intros [t' cells'] x' Hin' Hbkt.
      apply (Hothers t' cells' x' Hin'). now apply in_bucket_iff. }
    rewrite contributing_app in Hnil. apply app_eq_nil in Hnil as [Hb Ha].
    rewrite contributing_app, contributing_cons, Hb, Ha. cbn [fst snd].
    rewrite decide_True by (now apply in_bucket_iff). rewrite Hx. simpl app.
    now rewrite mean_singleton, std_singleton.
Qed.

(** Channel [A] at 10 seconds: the bucket at 86400 holds the one value
    1, the bucket at 86430 holds none. *)
Lemma resample_agg_sparse_bucket_witness :
  let one := {| bucket_start := 86400; stats := [(Some 1%Q, None)] |} in
  let none := {| bucket_start := 86430; stats := [(None, None)] |} in
  (0 < 10 /\
   one ∈ resample_agg 10 1 Samples.indexed_A /\
   stats one !! 0%nat = Some (Some 1%Q, None) /\
   Samples.indexed_A = [] ++ (86400, [Some 1%Q]) :: tail Samples.indexed_A /\
   (Some 1%Q = Some 1%Q /\ @None Q = None)) /\
  (0 < 10 /\
   none ∈ resample_agg 10 1 Samples.indexed_A /\
   stats none !! 0%nat = Some (None, None) /\
   (@None Q = None /\ @None Q = None)).
Proof.
  intros one none.
  assert (one ∈ resample_agg 10 1 Samples.indexed_A) as Hone.
  { vm_compute. repeat constructor. }
  assert (none ∈ resample_agg 10 1 Samples.indexed_A) as Hnone.
  { vm_compute. repeat constructor. }
  split.
  - split; [lia | split; [exact Hone | split; [reflexivity |
      split; [reflexivity |]]]].
    pose proof (resample_agg_sparse_bucket 10 1 Samples.indexed_A one 0
                  (Some 1%Q) None ltac:(lia) Hone eq_refl) as Hthm.
    cbv zeta in Hthm. destruct Hthm as [_ Hthm].
    apply (Hthm [] 86400 [Some 1%Q] (tail Samples.indexed_A) 1%Q);
      [reflexivity | simpl; lia | reflexivity |].
    intros t' cells' x' Hin [Hlo Hhi] _. simpl in Hin, Hlo, Hhi.
    repeat (apply elem_of_cons in Hin as [Hin|Hin];
            [injection Hin as -> _; lia|]).
    now apply elem_of_nil in Hin.
  - split; [lia | split; [exact Hnone | split; [reflexivity |]]].
    pose proof (resample_agg_sparse_bucket 10 1 Samples.indexed_A none 0
                  None None ltac:(lia) Hnone eq_refl) as Hthm.
    cbv zeta in Hthm. destruct Hthm as [Hthm _].
    apply Hthm.
    intros t cells x Hin [Hlo Hhi] _. simpl in Hin, Hlo, Hhi.
    repeat (apply elem_of_cons in Hin as [Hin|Hin];
            [injection Hin as -> _; lia|]).
    now apply elem_of_nil in Hin.
Defined.

(** Scenario A of the spec: channel [A]'s value 1 is alone in the first
    bucket, which gets mean 1 and no standard deviation. *)
Example scenario_A_first_bucket :
  head (resample_agg 10 1 Samples.indexed_A)
  = Some {| bucket_start := 86400; stats := [(Some 1%Q, None)] |}.
Proof. reflexivity. Qed.

(** ** Coordinate parser *)

Lemma digit_value_not_dot c d : digit_value c = Some d -> is_dot c = false.
Proof.
  unfold is_dot. destruct (Ascii.eqb_spec c "."%char) as [->|]; [|reflexivity].
  discriminate.
Qed.

Lemma substring_prefix (m rest : string) :
  substring 0 (String.length m) (m +:+ rest) = m.
Proof.
  induction m as [|c m IH]; simpl.
  - now destruct rest.
  - now rewrite IH.
Qed.

Lemma length_snoc (m : string) (c : ascii) :
  String.length (m +:+ String c EmptyString) = S (String.length m).
Proof. induction m as [|c' m IH]; simpl; [reflexivity | now rewrite IH]. Qed.

Lemma get_snoc (m : string) (c : ascii) :
  String.get (String.length m) (m +:+ String c EmptyString) = Some c.
Proof. induction m as [|c' m IH]; simpl; [reflexivity | exact IH]. Qed.

Lemma slice_degrees a b rest :
  substring 0 2 (String a (String b rest)) = String a (String b EmptyString).
Proof. simpl. now destruct rest. Qed.

Lemma slice_minutes a b (m : string) (c : ascii) :
  let s := String a (String b (m +:+ String c EmptyString)) in
  substring 2 (String.length s - 3) s = m.
Proof.
  intros s. subst s. cbn [String.length]. rewrite length_snoc.
  replace (S (S (S (String.length m))) - 3)%nat with (String.length m) by lia.
  cbn [substring]. apply substring_prefix.
Qed.

Lemma last_char_snoc a b (m : string) (c : ascii) :
  last_char (String a (String b (m +:+ String c EmptyString))) = Ok c.
Proof.
  unfold last_char. cbn [String.length]. rewrite length_snoc.
  replace (S (S (S (String.length m))) - 1)%nat
    with (S (S (String.length m))) by lia.
  cbn [String.get]. now rewrite get_snoc.
Qed.

(** The degrees field: two digits read as a number. *)
Lemma py_float_two_digits a b d1 d2 :
  digit_value a = Some d1 -> digit_value b = Some d2 ->
  exists q, py_float (String a (String b EmptyString)) = Ok q /\
            (q == inject_Z (10 * d1 + d2))%Q.
Proof.
  intros Ha Hb. unfold py_float. simpl.
  rewrite (digit_value_not_dot _ _ Ha), (digit_value_not_dot _ _ Hb). simpl.
  rewrite Ha, Hb. simpl. eexists. split; [reflexivity|].
  unfold Qeq, Qplus, Qdiv, Qmult, Qinv, inject_Z. simpl. lia.
Qed.

(** C10: a missing input gives a missing output; a string made of two
    degree digits, a minutes numeral and a direction character gives the
    degrees plus the minutes divided by 60, negated exactly when the
    direction is [S] or [W]. *)
Theorem dms_string_to_decimal_value a b minutes_text direction d1 d2 minutes :
  digit_value a = Some d1 ->
  digit_value b = Some d2 ->
  py_float minutes_text = Ok minutes ->
  dms_string_to_decimal None = Ok None /\
  exists decimal_degrees,
    dms_string_to_decimal
      (Some (String a (String b (minutes_text +:+ String direction EmptyString))))
      = Ok (Some decimal_degrees) /\
    (decimal_degrees ==
       if Ascii.eqb direction "S"%char || Ascii.eqb direction "W"%char
       then - (inject_Z (10 * d1 + d2) + minutes / 60)
       else inject_Z (10 * d1 + d2) + minutes / 60)%Q.
Proof.
  intros Ha Hb Hm. split; [reflexivity|].
  destruct (py_float_two_digits a b d1 d2 Ha Hb) as (degrees & Hdeg & Hdegv).
  unfold dms_string_to_decimal.
  rewrite slice_degrees, Hdeg.
  rewrite (slice_minutes a b minutes_text direction), Hm.
  rewrite last_char_snoc. simpl.
  eexists. split; [reflexivity|].
  unfold is_south_or_west.
  destruct (_ || _); now rewrite Hdegv.
Qed.

Lemma dms_string_to_decimal_value_witness :
  digit_value "3" = Some 3 /\
  digit_value "7" = Some 7 /\
  py_float "45.5" = Ok (45 + 5 / inject_Z (10 ^ 1))%Q /\
  dms_string_to_decimal None = Ok None /\
  exists decimal_degrees,
    dms_string_to_decimal (Some "3745.5S") = Ok (Some decimal_degrees) /\
    (decimal_degrees ==
       - (inject_Z (10 * 3 + 7) + (45 + 5 / inject_Z (10 ^ 1)) / 60))%Q.
Proof.
  split; [reflexivity | split; [reflexivity | split; [reflexivity |]]].
  apply (dms_string_to_decimal_value "3" "7" "45.5" "S" 3 7
           (45 + 5 / inject_Z (10 ^ 1))%Q); reflexivity.
Defined.

(** * Further properties of the pipeline *)

(** ** Epoch converter: failure, order and round trip *)




(** X2: The conversion preserves the order of tick counts: a later tick
    count never gives an earlier instant. *)
Theorem clr_datetime_to_unix_time_monotone b t1 t2 s1 s2 :
  t1 <= t2 ->
  clr_datetime_to_unix_time b (Some t1) = Ok (Timestamp s1) ->
  clr_datetime_to_unix_time b (Some t2) = Ok (Timestamp s2) ->
  s1 <= s2.
Proof.
  simpl. intros Hle H1 H2.
  apply pd_Timestamp_Ok in H1 as [[= ->] _].
  apply pd_Timestamp_Ok in H2 as [[= ->] _].
  apply Z.div_le_mono; lia.
Qed.

Lemma clr_datetime_to_unix_time_monotone_witness :
  638396640000000000 <= 638396640250000000 /\
  clr_datetime_to_unix_time nanosecond_bounds (Some 638396640000000000)
    = Ok (Timestamp 1704067200) /\
  clr_datetime_to_unix_time nanosecond_bounds (Some 638396640250000000)
    = Ok (Timestamp 1704067225) /\
  1704067200 <= 1704067225.
Proof.
  split; [lia | split; [reflexivity | split; [reflexivity |]]].
  apply (clr_datetime_to_unix_time_monotone nanosecond_bounds
           638396640000000000 638396640250000000);
    [lia | reflexivity | reflexivity].
Defined.

(** X3: Round trip: the tick count of a whole second [s] of the range, plus
    any sub-second part of [k] ticks, converts back to [s]; the
    sub-second part is lost. *)
Theorem clr_datetime_to_unix_time_of_ticks b s k :
  in_bounds b s ->
  0 <= k < 10000000 ->
  clr_datetime_to_unix_time b
    (Some (CLR_UNIX_EPOCH_DIFF_TICKS + s * 10000000 + k))
  = Ok (Timestamp s).
Proof.
  intros Hin Hk. simpl.
  replace (CLR_UNIX_EPOCH_DIFF_TICKS + s * 10000000 + k
           - CLR_UNIX_EPOCH_DIFF_TICKS) with (s * 10000000 + k) by lia.
  rewrite Z.div_add_l by lia. rewrite (Z.div_small k) by lia.
  rewrite Z.add_0_r. now apply pd_Timestamp_in_bounds.
Qed.

Lemma clr_datetime_to_unix_time_of_ticks_witness :
  in_bounds nanosecond_bounds (-1) /\
  0 <= 9999999 < 10000000 /\
  clr_datetime_to_unix_time nanosecond_bounds
    (Some (CLR_UNIX_EPOCH_DIFF_TICKS + -1 * 10000000 + 9999999))
  = Ok (Timestamp (-1)).
Proof.
  assert (in_bounds nanosecond_bounds (-1)) as Hin.
  { unfold in_bounds; split; apply Z.leb_le; reflexivity. }
  split; [exact Hin | split; [lia |]].
  apply (clr_datetime_to_unix_time_of_ticks nanosecond_bounds (-1) 9999999);
    [exact Hin | lia].
Defined.

(** ** Valid-range trimmer: what is kept *)

Lemma first_valid_index_lookup col i :
  first_valid_index col = Some i ->
  (exists v, col !! i = Some (Some v)) /\
  forall k, (k < i)%nat -> col !! k = Some None.
Proof.
  revert i. induction col as [|c rest IH]; simpl; intros i Hi; [discriminate|].
  destruct c as [v|]; simpl in Hi.
  - injection Hi as <-. split; [now exists v | lia].
  - destruct (first_valid_index rest) as [i'|]; [|discriminate].
    injection Hi as <-. destruct (IH i' eq_refl) as [Hv Hbefore].
    split; [exact Hv|]. intros [|k] Hk; [reflexivity|].
    simpl. apply Hbefore. lia.
Qed.

Lemma last_valid_index_lookup col j :
  last_valid_index col = Some j ->
  (exists v, col !! j = Some (Some v)) /\
  forall k, (j < k)%nat -> (k < length col)%nat -> col !! k = Some None.
Proof.
  revert j. induction col as [|c rest IH]; simpl; intros j Hj; [discriminate|].
  destruct (last_valid_index rest) as [j'|] eqn:Hrest.
  - injection Hj as <-. destruct (IH j' eq_refl) as [Hv Hafter].
    split; [exact Hv|]. intros [|k] Hk Hlen; [lia|].
    simpl. apply Hafter; lia.
  - destruct c as [v|]; simpl in Hj; [|discriminate].
    injection Hj as <-. split; [now exists v|].
    intros [|k] Hk Hlen; [lia|]. simpl.
    apply last_valid_index_None in Hrest.
    destruct (lookup_lt_is_Some_2 rest k ltac:(lia)) as [c Hc].
    rewrite Hc. f_equal.
    now apply (proj1 (Forall_lookup _ _) Hrest k c).
Qed.

(** The last valid index seen from the first one. *)
Lemma last_valid_index_drop col i j :
  first_valid_index col = Some i ->
  last_valid_index col = Some j ->
  (i <= j)%nat /\ last_valid_index (drop i col) = Some (j - i)%nat.
Proof.
  revert i j. induction col as [|c rest IH]; simpl; intros i j Hi Hj;
    [discriminate|].
  destruct c as [v|]; simpl in Hi.
  - injection Hi as <-. simpl. rewrite Nat.sub_0_r. split; [lia | exact Hj].
  - destruct (first_valid_index rest) as [i'|] eqn:Hfirst; [|discriminate].
    injection Hi as <-.
    destruct (last_valid_index rest) as [j'|] eqn:Hlast.
    + injection Hj as <-. destruct (IH i' j' eq_refl eq_refl) as [Hle Hdrop].
      simpl. split; [lia | exact Hdrop].
    + apply last_valid_index_None, first_valid_index_None in Hlast.
      congruence.
Qed.

Lemma trim_rows_between cols name f rs i j :
  (forall rs', getitem {| columns := cols; rows := rs' |} name = Ok (f <$> rs')) ->
  first_valid_index (f <$> rs) = Some i ->
  last_valid_index (f <$> rs) = Some j ->
  trim_valid_range {| columns := cols; rows := rs |} name
  = Ok {| columns := cols; rows := take (S (j - i)) (drop i rs) |}.
Proof.
  intros Hf Hi Hj.
  destruct (last_valid_index_drop _ i j Hi Hj) as [_ Hdrop].
  rewrite (trim_valid_range_rows _ _ f rs Hf).
  now rewrite Hi, fmap_drop, Hdrop.
Qed.

(** X4: The trimmer keeps exactly the rows from the first through the last
    row whose target is present, both included, under the same column
    labels. *)
Theorem trim_valid_range_slice df pred_column col i j :
  getitem df pred_column = Ok col ->
  first_valid_index col = Some i ->
  last_valid_index col = Some j ->
  (i <= j)%nat /\
  trim_valid_range df pred_column
  = Ok {| columns := columns df;
          rows := take (S (j - i)) (drop i (rows df)) |}.
Proof.
  destruct df as [cols rs]. intros Hcol Hi Hj.
  destruct (getitem_rows cols pred_column) as [[f Hf]|Hf];
    [|rewrite Hf in Hcol; discriminate].
  rewrite Hf in Hcol. injection Hcol as <-.
  split.
  - now destruct (last_valid_index_drop _ i j Hi Hj).
  - now apply (trim_rows_between cols pred_column f).
Qed.

Lemma trim_valid_range_slice_witness :
  let df := {| columns := ["A"]; rows := [(0, [None]); (1, [Some (Num 5)]);
                                          (2, [None]); (3, [Some (Num 6)]);
                                          (4, [None])] |} in
  let col := [None; Some (Num 5); None; Some (Num 6); None] in
  getitem df "A" = Ok col /\
  first_valid_index col = Some 1%nat /\
  last_valid_index col = Some 3%nat /\
  (1 <= 3)%nat /\
  trim_valid_range df "A"
  = Ok {| columns := ["A"];
          rows := [(1, [Some (Num 5)]); (2, [None]); (3, [Some (Num 6)])] |}.
Proof.
  intros df col.
  split; [reflexivity | split; [reflexivity | split; [reflexivity |]]].
  apply (trim_valid_range_slice df "A" col 1 3); reflexivity.
Defined.

(** X5: When the target has a value at all, the trimmed table starts and
    ends with a row whose target is present. *)
Theorem trim_valid_range_envelope df pred_column col i df' :
  getitem df pred_column = Ok col ->
  first_valid_index col = Some i ->
  trim_valid_range df pred_column = Ok df' ->
  exists col' v_first v_last,
    getitem df' pred_column = Ok col' /\
    head col' = Some (Some v_first) /\
    last col' = Some (Some v_last).
Proof.
  destruct df as [cols rs]. intros Hcol Hi Htrim.
  destruct (last_valid_index col) as [j|] eqn:Hj.
  2:{ apply last_valid_index_None, first_valid_index_None in Hj. congruence. }
  destruct (getitem_rows cols pred_column) as [[f Hf]|Hf];
    [|rewrite Hf in Hcol; discriminate].
  rewrite Hf in Hcol. injection Hcol as <-.
  destruct (last_valid_index_drop _ i j Hi Hj) as [Hle _].
  rewrite (trim_rows_between _ _ f rs i j Hf Hi Hj) in Htrim.
  injection Htrim as <-.
  destruct (first_valid_index_lookup _ _ Hi) as [[v1 Hv1] _].
  destruct (last_valid_index_lookup _ _ Hj) as [[v2 Hv2] _].
  exists (f <$> take (S (j - i)) (drop i rs)), v1, v2.
  split; [apply Hf|].
  assert (j < length (f <$> rs))%nat as Hlen by (eapply lookup_lt_Some; eauto).
  rewrite fmap_take, fmap_drop. split.
  - rewrite head_lookup, lookup_take_lt, lookup_drop, Nat.add_0_r by lia.
    exact Hv1.
  - rewrite last_lookup, length_take, length_drop.
    replace (Init.Nat.pred (S (j - i) `min` (length (f <$> rs) - i)))
      with (j - i)%nat by lia.
    rewrite lookup_take_lt, lookup_drop by lia.
    now replace (i + (j - i))%nat with j by lia.
Qed.

Lemma trim_valid_range_envelope_witness :
  let df := {| columns := ["A"]; rows := [(0, [None]); (1, [Some (Num 5)]);
                                          (2, [None]); (3, [Some (Num 6)]);
                                          (4, [None])] |} in
  let col := [None; Some (Num 5); None; Some (Num 6); None] in
  let df' := {| columns := ["A"];
                rows := [(1, [Some (Num 5)]); (2, [None]);
                         (3, [Some (Num 6)])] |} in
  getitem df "A" = Ok col /\
  first_valid_index col = Some 1%nat /\
  trim_valid_range df "A" = Ok df' /\
  exists col' v_first v_last,
    getitem df' "A" = Ok col' /\
    head col' = Some (Some v_first) /\
    last col' = Some (Some v_last).
Proof.
  intros df col df'.
  split; [reflexivity | split; [reflexivity | split; [reflexivity |]]].
  apply (trim_valid_range_envelope df "A" col 1 df'); reflexivity.
Defined.

(** X6: No row whose target is present is ever trimmed away. *)
Theorem trim_valid_range_keeps_valid df pred_column col df' k r v :
  getitem df pred_column = Ok col ->
  trim_valid_range df pred_column = Ok df' ->
  rows df !! k = Some r ->
  col !! k = Some (Some v) ->
  r ∈ rows df'.
Proof.
  destruct df as [cols rs]. intros Hcol Htrim Hr Hv.
  destruct (getitem_rows cols pred_column) as [[f Hf]|Hf];
    [|rewrite Hf in Hcol; discriminate].
  rewrite Hf in Hcol. injection Hcol as <-.
  destruct (first_valid_index (f <$> rs)) as [i|] eqn:Hi.
  2:{ apply first_valid_index_None in Hi.
      pose proof (proj1 (Forall_lookup _ _) Hi k _ Hv). discriminate. }
  destruct (last_valid_index (f <$> rs)) as [j|] eqn:Hj.
  2:{ apply last_valid_index_None, first_valid_index_None in Hj. congruence. }
  rewrite (trim_rows_between _ _ f rs i j Hf Hi Hj) in Htrim.
  injection Htrim as <-. simpl in *.
  destruct (first_valid_index_lookup _ _ Hi) as [_ Hbefore].
  destruct (last_valid_index_lookup _ _ Hj) as [_ Hafter].
  assert (i <= k)%nat as Hik.
  { destruct (decide (k < i)%nat) as [Hlt|]; [|lia].
    rewrite (Hbefore k Hlt) in Hv. discriminate. }
  assert (k <= j)%nat as Hkj.
  { destruct (decide (j < k)%nat) as [Hlt|]; [|lia].
    rewrite (Hafter k Hlt) in Hv; [discriminate|].
    eapply lookup_lt_Some; eauto. }
  apply list_elem_of_lookup. exists (k - i)%nat.
  rewrite lookup_take_lt, lookup_drop by lia.
  now replace (i + (k - i))%nat with k by lia.
Qed.

Lemma trim_valid_range_keeps_valid_witness :
  let df := {| columns := ["A"]; rows := [(0, [None]); (1, [Some (Num 5)]);
                                          (2, [None]); (3, [Some (Num 6)]);
                                          (4, [None])] |} in
  let col := [None; Some (Num 5); None; Some (Num 6); None] in
  let df' := {| columns := ["A"];
                rows := [(1, [Some (Num 5)]); (2, [None]);
                         (3, [Some (Num 6)])] |} in
  getitem df "A" = Ok col /\
  trim_valid_range df "A" = Ok df' /\
  rows df !! 3%nat = Some (3, [Some (Num 6)]) /\
  col !! 3%nat = Some (Some (Num 6)) /\
  (3, [Some (Num 6)]) ∈ rows df'.
Proof.
  intros df col df'.
  split; [reflexivity | split; [reflexivity | split; [reflexivity |
    split; [reflexivity |]]]].
  apply (trim_valid_range_keeps_valid df "A" col df' 3 (3, [Some (Num 6)])
           (Num 6)); reflexivity.
Defined.

(** ** [process_dataframe]: errors, output and order *)

Lemma getitem_KeyError df name :
  name <> "timestamp" -> name ∉ columns df ->
  getitem df name = Raise KeyError.
Proof.
  intros Hkey Hnot. unfold getitem.
  destruct (decide (name = "timestamp")); [contradiction|].
  destruct (list_find _ (columns df)) as [[j c]|] eqn:Hfind; [|reflexivity].
  apply list_find_Some in Hfind as (Hc & -> & _).
  exfalso. apply Hnot. eapply list_elem_of_lookup_2; eauto.
Qed.

(** X7: A target column the table does not have is a [KeyError], raised
    after the column check and before anything is written. *)
Theorem process_dataframe_KeyError b csv_files filename df pred_column :
  len_columns df = (length csv_files + 1)%nat ->
  pred_column <> "timestamp" ->
  pred_column ∉ columns df ->
  process_dataframe b csv_files filename df pred_column = ([], Raise KeyError).
Proof.
  intros Hlen Hkey Hnot. unfold process_dataframe.
  rewrite (proj2 (Nat.eqb_eq _ _) Hlen). simpl.
  unfold trim_valid_range. now rewrite (getitem_KeyError df _ Hkey Hnot).
Qed.

Lemma process_dataframe_KeyError_witness :
  len_columns Samples.target_all_missing = (length Samples.two_files + 1)%nat /\
  "rpm" <> "timestamp" /\
  ("rpm" ∉ columns Samples.target_all_missing) /\
  process_dataframe nanosecond_bounds Samples.two_files "final.csv"
    Samples.target_all_missing "rpm" = ([], Raise KeyError).
Proof.
  assert ("rpm" ∉ columns Samples.target_all_missing) as Hnot.
  { simpl. intros Hin. repeat (apply elem_of_cons in Hin as [Hin|Hin];
      [discriminate Hin|]). now apply elem_of_nil in Hin. }
  split; [reflexivity | split; [discriminate | split; [exact Hnot |]]].
  apply (process_dataframe_KeyError nanosecond_bounds Samples.two_files
           "final.csv" Samples.target_all_missing "rpm");
    [reflexivity | discriminate | exact Hnot].
Defined.


(** The trimmer returns a run of consecutive rows of its input, under
    the same labels: rows are only ever removed at the two ends. *)
Lemma trim_valid_range_segment df pred_column df' :
  trim_valid_range df pred_column = Ok df' ->
  columns df' = columns df /\
  exists i n, rows df' = take n (drop i (rows df)).
Proof.
  destruct df as [cols rs]. intros Htrim.
  destruct (getitem_rows cols pred_column) as [[f Hf]|Hf].
  - rewrite (trim_valid_range_rows _ _ f rs Hf) in Htrim.
    injection Htrim as <-.
    destruct (first_valid_index (f <$> rs)) as [i|].
    + destruct (last_valid_index (f <$> drop i rs)) as [j|]; simpl;
        (split; [reflexivity|]).
      * now exists i, (S j).
      * exists i, (length (drop i rs)). now rewrite take_ge.
    + destruct (last_valid_index (f <$> rs)) as [j|]; simpl;
        (split; [reflexivity|]).
      * now exists 0%nat, (S j).
      * exists 0%nat, (length rs). now rewrite drop_0, take_ge.
  - unfold trim_valid_range in Htrim. rewrite Hf in Htrim. discriminate.
Qed.

(** X8: When the check passes, every kept timestamp is in range and no
    channel is labelled [datetime], the one effect of [process_dataframe]
    is to write the trimmed table with each raw timestamp replaced by its
    calendar instant; labels, cells and the number and order of rows are
    those of the trimmed table. *)
Theorem process_dataframe_output b csv_files filename df pred_column df' :
  len_columns df = (length csv_files + 1)%nat ->
  trim_valid_range df pred_column = Ok df' ->
  Forall (fun t => in_bounds b ((t - CLR_UNIX_EPOCH_DIFF_TICKS) / 10000000))
         (keys df') ->
  "datetime" ∉ columns df ->
  process_dataframe b csv_files filename df pred_column
  = ([ToCsv filename
        {| columns := columns df';
           rows := (fun r => (Timestamp ((r.1 - CLR_UNIX_EPOCH_DIFF_TICKS)
                                         / 10000000), r.2)) <$> rows df' |}],
     Ok tt).
Proof.
  intros Hlen Htrim Hin Hlabel. unfold process_dataframe.
  rewrite (proj2 (Nat.eqb_eq _ _) Hlen). simpl. rewrite Htrim. simpl.
  rewrite normalize_eq, (apply_clr_in_bounds _ _ Hin). simpl.
  rewrite overwritten_absent.
  - unfold keys. now rewrite zip_fmap_keys.
  - now rewrite (proj1 (trim_valid_range_segment _ _ _ Htrim)).
Qed.

Lemma process_dataframe_output_witness :
  let df' := {| columns := ["fuelVolumeFlowRate"; "speed"];
                rows := [(638396640000000000, [Some (Num 3); Some (Num 12)]);
                         (638396640250000000, [Some (Num 4); None])] |} in
  let df := {| columns := columns df';
               rows := (638396639990000000, [None; Some (Num 11)])
                       :: rows df' |} in
  len_columns df = (length Samples.two_files + 1)%nat /\
  trim_valid_range df "fuelVolumeFlowRate" = Ok df' /\
  Forall (fun t => in_bounds nanosecond_bounds
                     ((t - CLR_UNIX_EPOCH_DIFF_TICKS) / 10000000)) (keys df') /\
  ("datetime" ∉ columns df) /\
  process_dataframe nanosecond_bounds Samples.two_files "final.csv" df
    "fuelVolumeFlowRate"
  = ([ToCsv "final.csv"
        {| columns := ["fuelVolumeFlowRate"; "speed"];
           rows := [(Timestamp 1704067200, [Some (Num 3); Some (Num 12)]);
                    (Timestamp 1704067225, [Some (Num 4); None])] |}],
     Ok tt).
Proof.
  intros df' df.
  assert (Forall (fun t => in_bounds nanosecond_bounds
                     ((t - CLR_UNIX_EPOCH_DIFF_TICKS) / 10000000)) (keys df'))
    as Hin.
  { repeat constructor; apply Z.leb_le; reflexivity. }
  assert ("datetime" ∉ columns df) as Hlabel.
  { simpl. intros Hl. repeat (apply elem_of_cons in Hl as [Hl|Hl];
      [discriminate Hl|]). now apply elem_of_nil in Hl. }
  split; [reflexivity | split; [reflexivity | split; [exact Hin |
    split; [exact Hlabel |]]]].
  apply (process_dataframe_output nanosecond_bounds Samples.two_files
           "final.csv" df "fuelVolumeFlowRate" df');
    [reflexivity | reflexivity | exact Hin | exact Hlabel].
Defined.

(** X29: A channel labelled [datetime] does not reach the output: the
    assignment of the instants overwrites it.  With that label at
    position [j], the written table has the labels of the trimmed table
    without the [j]-th and, in every row, the cells without the [j]-th:
    one column fewer than channels. *)
Theorem process_dataframe_overwrites_datetime b csv_files filename df
    pred_column df' j :
  len_columns df = (length csv_files + 1)%nat ->
  trim_valid_range df pred_column = Ok df' ->
  Forall (fun t => in_bounds b ((t - CLR_UNIX_EPOCH_DIFF_TICKS) / 10000000))
         (keys df') ->
  columns df !! j = Some "datetime" ->
  "datetime" ∉ take j (columns df) ->
  exists out,
    process_dataframe b csv_files filename df pred_column
      = ([ToCsv filename out], Ok tt) /\
    columns out = delete j (columns df) /\
    S (length (columns out)) = length (columns df) /\
    rows out
    = (fun r => (Timestamp ((r.1 - CLR_UNIX_EPOCH_DIFF_TICKS) / 10000000),
                 delete j r.2)) <$> rows df'.
Proof.
  intros Hlen Htrim Hin Hj Hfirst. unfold process_dataframe.
  rewrite (proj2 (Nat.eqb_eq _ _) Hlen). simpl. rewrite Htrim. simpl.
  rewrite normalize_eq, (apply_clr_in_bounds _ _ Hin). simpl.
  pose proof (proj1 (trim_valid_range_segment _ _ _ Htrim)) as Hcols.
  assert (list_find (fun c => c = "datetime") (columns df')
          = Some (j, "datetime")) as Hfind.
  { rewrite Hcols. apply list_find_Some. split; [exact Hj|].
    split; [reflexivity|]. intros i c Hi Hlt ->. apply Hfirst.
    apply (list_elem_of_lookup_2 _ i). rewrite lookup_take_lt by exact Hlt.
    exact Hi. }
  unfold overwritten. rewrite Hfind. cbn [columns rows].
  eexists. split; [reflexivity|]. cbn [columns rows].
  split; [now rewrite Hcols|]. split.
  - rewrite Hcols, length_delete by (now exists "datetime").
    apply lookup_lt_Some in Hj. lia.
  - unfold keys. clear. induction (rows df') as [|[t cells] rs IH];
      [reflexivity|]. simpl in *. f_equal. exact IH.
Qed.

Lemma process_dataframe_overwrites_datetime_witness :
  let df := {| columns := ["fuelVolumeFlowRate"; "datetime"];
               rows := [(638396640000000000, [Some (Num 3); Some (Num 12)]);
                        (638396640250000000, [Some (Num 4); None])] |} in
  len_columns df = (length Samples.two_files + 1)%nat /\
  trim_valid_range df "fuelVolumeFlowRate" = Ok df /\
  Forall (fun t => in_bounds nanosecond_bounds
                     ((t - CLR_UNIX_EPOCH_DIFF_TICKS) / 10000000)) (keys df) /\
  columns df !! 1%nat = Some "datetime" /\
  ("datetime" ∉ take 1 (columns df)) /\
  exists out,
    process_dataframe nanosecond_bounds Samples.two_files "final.csv" df
      "fuelVolumeFlowRate" = ([ToCsv "final.csv" out], Ok tt) /\
    columns out = delete 1%nat (columns df) /\
    S (length (columns out)) = length (columns df) /\
    rows out
    = (fun r => (Timestamp ((r.1 - CLR_UNIX_EPOCH_DIFF_TICKS) / 10000000),
                 delete 1%nat r.2)) <$> rows df.
Proof.
  intros df.
  assert (Forall (fun t => in_bounds nanosecond_bounds
                     ((t - CLR_UNIX_EPOCH_DIFF_TICKS) / 10000000)) (keys df))
    as Hin.
  { repeat constructor; apply Z.leb_le; reflexivity. }
  assert ("datetime" ∉ take 1 (columns df)) as Hfirst.
  { simpl. intros Hl. apply elem_of_cons in Hl as [Hl|Hl]; [discriminate Hl|].
    now apply elem_of_nil in Hl. }
  split; [reflexivity | split; [reflexivity | split; [exact Hin |
    split; [reflexivity | split; [exact Hfirst |]]]]].
  apply (process_dataframe_overwrites_datetime nanosecond_bounds
           Samples.two_files "final.csv" df "fuelVolumeFlowRate" df 1%nat);
    [reflexivity | reflexivity | exact Hin | reflexivity | exact Hfirst].
Defined.

(** X9: One kept timestamp outside the range of the timestamp type makes the
    whole run fail, and nothing is written. *)
Theorem process_dataframe_out_of_range b csv_files filename df pred_column df' :
  len_columns df = (length csv_files + 1)%nat ->
  trim_valid_range df pred_column = Ok df' ->
  Exists (fun t => ~ in_bounds b ((t - CLR_UNIX_EPOCH_DIFF_TICKS) / 10000000))
         (keys df') ->
  process_dataframe b csv_files filename df pred_column
  = ([], Raise OutOfBoundsDatetime).
Proof.
  intros Hlen Htrim Hout. unfold process_dataframe.
  rewrite (proj2 (Nat.eqb_eq _ _) Hlen). simpl. rewrite Htrim. simpl.
  now rewrite normalize_eq, (apply_clr_out_of_bounds _ _ Hout).
Qed.

Lemma process_dataframe_out_of_range_witness :
  let df := {| columns := ["fuelVolumeFlowRate"; "speed"];
               rows := [(638396640000000000, [Some (Num 3); Some (Num 12)]);
                        (9223372036854775807, [Some (Num 4); None])] |} in
  len_columns df = (length Samples.two_files + 1)%nat /\
  trim_valid_range df "fuelVolumeFlowRate" = Ok df /\
  Exists (fun t => ~ in_bounds calendar_bounds
                     ((t - CLR_UNIX_EPOCH_DIFF_TICKS) / 10000000)) (keys df) /\
  process_dataframe calendar_bounds Samples.two_files "final.csv" df
    "fuelVolumeFlowRate"
  = ([], Raise OutOfBoundsDatetime).
Proof.
  intros df.
  assert (Exists (fun t => ~ in_bounds calendar_bounds
                     ((t - CLR_UNIX_EPOCH_DIFF_TICKS) / 10000000)) (keys df))
    as Hout.
  { apply Exists_cons_tl, Exists_cons_hd. intros [_ Hhi].
    apply Z.leb_le in Hhi. discriminate Hhi. }
  split; [reflexivity | split; [reflexivity | split; [exact Hout |]]].
  apply (process_dataframe_out_of_range calendar_bounds Samples.two_files
           "final.csv" df "fuelVolumeFlowRate" df);
    [reflexivity | reflexivity | exact Hout].
Defined.

Lemma Sorted_take_drop (l : list Z) i n :
  Sorted Z.le l -> Sorted Z.le (take n (drop i l)).
Proof.
  intros Hl. apply StronglySorted_Sorted.
  apply (Sorted_StronglySorted _) in Hl.
  rewrite <- (take_drop i l) in Hl.
  apply StronglySorted_app in Hl as (_ & _ & Hdrop).
  rewrite <- (take_drop n (drop i l)) in Hdrop.
  now apply StronglySorted_app in Hdrop as (_ & Htake & _).
Qed.

(** X10: Normalisation keeps the order: a table sorted by raw timestamp is
    written sorted by calendar time. *)
Theorem process_dataframe_keeps_order b csv_files filename df pred_column out :
  Sorted Z.le (keys df) ->
  process_dataframe b csv_files filename df pred_column
    = ([ToCsv filename out], Ok tt) ->
  exists seconds, keys out = Timestamp <$> seconds /\ Sorted Z.le seconds.
Proof.
  intros Hsorted. unfold process_dataframe.
  destruct (negb _); [discriminate|]. simpl.
  destruct (trim_valid_range df pred_column) as [df'|e] eqn:Htrim; simpl;
    [|discriminate].
  rewrite normalize_eq.
  destruct (apply _ (keys df')) as [ds|e] eqn:Hds; simpl; [|discriminate].
  intros [= <-]. apply apply_clr_Ok in Hds as ->.
  exists ((fun t => (t - CLR_UNIX_EPOCH_DIFF_TICKS) / 10000000) <$> keys df').
  split.
  - unfold keys at 1. cbn [rows].
    rewrite fst_zip
      by (rewrite <- (overwritten_keys "datetime" df'); unfold keys;
          now rewrite !length_fmap).
    now rewrite <- (list_fmap_compose _ Timestamp).
  - apply Sorted_fmap with (R1 := Z.le).
    + intros t1 t2 Hle. apply Z.div_le_mono; lia.
    + apply trim_valid_range_segment in Htrim as (_ & i & n & Hrows).
      unfold keys. rewrite Hrows, fmap_take, fmap_drop.
      now apply Sorted_take_drop.
Qed.

Lemma process_dataframe_keeps_order_witness :
  let df := {| columns := ["fuelVolumeFlowRate"; "speed"];
               rows := [(638396640000000000, [Some (Num 3); Some (Num 12)]);
                        (638396640250000000, [Some (Num 4); None])] |} in
  let out := {| columns := ["fuelVolumeFlowRate"; "speed"];
                rows := [(Timestamp 1704067200, [Some (Num 3); Some (Num 12)]);
                         (Timestamp 1704067225, [Some (Num 4); None])] |} in
  Sorted Z.le (keys df) /\
  process_dataframe nanosecond_bounds Samples.two_files "final.csv" df
    "fuelVolumeFlowRate" = ([ToCsv "final.csv" out], Ok tt) /\
  exists seconds, keys out = Timestamp <$> seconds /\ Sorted Z.le seconds.
Proof.
  intros df out.
  assert (Sorted Z.le (keys df)) as Hsorted.
  { repeat constructor. apply Z.leb_le. reflexivity. }
  split; [exact Hsorted | split; [reflexivity |]].
  apply (process_dataframe_keeps_order nanosecond_bounds Samples.two_files
           "final.csv" df "fuelVolumeFlowRate" out);
    [exact Hsorted | reflexivity].
Defined.

(** ** [create_dataframe]: failures and the shape of the merged table *)

Lemma load_all_Ok csv_files :
  Forall (fun file => column_name_of file <> "timestamp") csv_files ->
  load_all csv_files
  = Ok ((fun file => {| columns := [column_name_of file];
                        rows := (fun '(t, v) => (t, [v])) <$> content file |})
        <$> csv_files).
Proof.
  induction 1 as [|file rest Hname _ IH]; [reflexivity|].
  cbn [load_all]. unfold read_csv_named.
  destruct (decide _) as [|_]; [contradiction|].
  cbn [result_bind]. now rewrite IH.
Qed.

Lemma load_all_raises csv_files :
  Exists (fun file => column_name_of file = "timestamp") csv_files ->
  load_all csv_files = Raise ValueError.
Proof.
  induction csv_files as [|file rest IH]; intros Hex;
    [now apply Exists_nil in Hex|].
  cbn [load_all]. unfold read_csv_named.
  destruct (decide (column_name_of file = "timestamp")) as [|Hname];
    [reflexivity|].
  cbn [result_bind].
  apply Exists_cons in Hex as [|Hex]; [contradiction|].
  now rewrite (IH Hex).
Qed.

Lemma timestamp_name_dec csv_files :
  Forall (fun file => column_name_of file <> "timestamp") csv_files \/
  Exists (fun file => column_name_of file = "timestamp") csv_files.
Proof.
  induction csv_files as [|file rest [IH|IH]].
  - left. constructor.
  - destruct (decide (column_name_of file = "timestamp")).
    + right. now apply Exists_cons_hd.
    + left. now constructor.
  - right. now apply Exists_cons_tl.
Qed.

(** X11: A file named after the key column ([timestamp.csv]) makes the loader
    fail: [create_dataframe] raises [ValueError] without writing or
    printing anything, exactly when some input file derives the name
    ['timestamp']. *)
Theorem create_dataframe_ValueError csv_files output_file :
  create_dataframe csv_files output_file = ([], Raise ValueError)
  <-> exists file, file ∈ csv_files /\ column_name_of file = "timestamp".
Proof.
  unfold create_dataframe. split.
  - intros Hraise.
    destruct (timestamp_name_dec csv_files) as [Hok|Hex].
    + rewrite (load_all_Ok _ Hok) in Hraise.
      destruct csv_files as [|file rest]; discriminate Hraise.
    + apply Exists_exists in Hex as (file & Hin & Hname).
      exists file. split; [first [assumption | now apply list_elem_of_In] | exact Hname].
  - intros (file & Hin & Hname).
    rewrite load_all_raises; [reflexivity|].
    apply Exists_exists. exists file.
    split; [first [assumption | now apply list_elem_of_In] | exact Hname].
Qed.

(** X12: [create_dataframe] is all or nothing: either it writes the merged
    table and then prints its message, or it fails (with [ValueError] or
    [IndexError]) having written and printed nothing. *)
Theorem create_dataframe_all_or_nothing csv_files output_file :
  (exists merged_df,
     create_dataframe csv_files output_file
     = ([ToCsv output_file merged_df;
         Print ("Concatenated CSV file saved to " +:+ output_file)], Ok tt)) \/
  create_dataframe csv_files output_file = ([], Raise ValueError) \/
  create_dataframe csv_files output_file = ([], Raise IndexError).
Proof.
  unfold create_dataframe.
  destruct (timestamp_name_dec csv_files) as [Hok|Hex].
  - rewrite (load_all_Ok _ Hok).
    destruct csv_files as [|file rest].
    + right; right. reflexivity.
    + left. eexists. reflexivity.
  - right; left. now rewrite load_all_raises.
Qed.

Lemma merge_sort_Forall {A} (P : Z * A -> Prop) (rs : list (Z * A)) :
  Forall P rs -> Forall P (merge_sort key_le rs).
Proof. intros H. now rewrite merge_sort_Permutation. Qed.

Lemma outer_join_rows_width wl wr left right :
  Forall (fun r => length r.2 = wl) left ->
  Forall (fun r => length r.2 = wr) right ->
  Forall (fun r => length r.2 = (wl + wr)%nat)
         (outer_join_rows wl wr left right).
Proof.
  intros Hl Hr. unfold outer_join_rows, join_right_only.
  apply Forall_app. split.
  - apply Forall_forall. intros row Hrow.
    apply list_elem_of_bind in Hrow as (l & Hrow & Hin).
    pose proof (proj1 (Forall_forall _ _) Hl l Hin) as Hwl; cbn beta in Hwl.
    unfold join_left in Hrow.
    destruct (filter _ right) as [|r0 ms] eqn:Hms.
    + apply list_elem_of_singleton in Hrow as ->. simpl.
      unfold nans. rewrite length_app, length_replicate. lia.
    + apply list_elem_of_fmap in Hrow as (r & -> & Hr0). simpl.
      rewrite <- Hms in Hr0. apply list_elem_of_filter in Hr0 as [_ Hr0].
      pose proof (proj1 (Forall_forall _ _) Hr r Hr0) as Hwr; cbn beta in Hwr.
      rewrite length_app. lia.
  - apply Forall_fmap, Forall_forall. intros r Hin. simpl.
    apply list_elem_of_filter in Hin as [_ Hin].
    pose proof (proj1 (Forall_forall _ _) Hr r Hin) as Hwr; cbn beta in Hwr.
    unfold nans. rewrite length_app, length_replicate. lia.
Qed.


Lemma merge_outer_columns_length left right :
  length (columns (merge_outer left right))
  = (length (columns left) + length (columns right))%nat.
Proof. simpl. now rewrite length_app, !length_fmap. Qed.

Lemma merge_outer_rectangular left right :
  rectangular left -> rectangular right ->
  rectangular (merge_outer left right).
Proof.
  intros Hl Hr. unfold rectangular.
  rewrite merge_outer_columns_length. simpl.
  apply merge_sort_Forall. now apply outer_join_rows_width.
Qed.

Lemma foldl_merge_outer_shape dfs first :
  rectangular first ->
  Forall (fun df => rectangular df /\ length (columns df) = 1%nat) dfs ->
  rectangular (foldl merge_outer first dfs) /\
  length (columns (foldl merge_outer first dfs))
  = (length (columns first) + length dfs)%nat.
Proof.
  intros Hfirst Hdfs. revert first Hfirst.
  induction Hdfs as [|df dfs [Hdf Hone] _ IH]; intros first Hfirst.
  - simpl. split; [exact Hfirst | lia].
  - cbn [foldl].
    destruct (IH (merge_outer first df)
                 (merge_outer_rectangular _ _ Hfirst Hdf)) as [Hrect Hlen].
    split; [exact Hrect|].
    rewrite Hlen, merge_outer_columns_length, Hone. simpl. lia.
Qed.

Lemma loaded_frame_shape (file : CsvFile) :
  let df := {| columns := [column_name_of file];
               rows := (fun '(t, v) => (t, [v])) <$> content file |} in
  rectangular df /\ length (columns df) = 1%nat.
Proof.
  simpl. split; [|reflexivity].
  unfold rectangular. simpl. apply Forall_fmap, Forall_forall.
  now intros [t v] _.
Qed.

Lemma merged_table_shape file rest :
  let loaded := fun file => {| columns := [column_name_of file];
                               rows := (fun '(t, v) => (t, [v]))
                                         <$> content file |} in
  let merged_df := sort_values (foldl merge_outer (loaded file)
                                      (loaded <$> rest)) in
  length (columns merged_df) = S (length rest) /\ rectangular merged_df.
Proof.
  intros loaded merged_df.
  destruct (foldl_merge_outer_shape (loaded <$> rest) (loaded file))
    as [Hshape Hlen].
  { apply loaded_frame_shape. }
  { apply Forall_fmap, Forall_forall. intros f _. apply loaded_frame_shape. }
  rewrite length_fmap in Hlen.
  split.
  - exact Hlen.
  - unfold rectangular. apply merge_sort_Forall. exact Hshape.
Qed.

Lemma create_dataframe_run csv_files output_file merged_df evs :
  create_dataframe csv_files output_file
    = (ToCsv output_file merged_df :: evs, Ok tt) ->
  exists file rest,
    csv_files = file :: rest /\
    Forall (fun file => column_name_of file <> "timestamp") csv_files /\
    merged_df
    = sort_values
        (foldl merge_outer
           {| columns := [column_name_of file];
              rows := (fun '(t, v) => (t, [v])) <$> content file |}
           ((fun file => {| columns := [column_name_of file];
                            rows := (fun '(t, v) => (t, [v]))
                                      <$> content file |}) <$> rest)).
Proof.
  unfold create_dataframe. intros Hrun.
  destruct (timestamp_name_dec csv_files) as [Hok|Hex];
    [|rewrite (load_all_raises _ Hex) in Hrun; discriminate Hrun].
  rewrite (load_all_Ok _ Hok) in Hrun.
  destruct csv_files as [|file rest]; [discriminate Hrun|].
  cbn in Hrun. injection Hrun as <- _.
  now exists file, rest.
Qed.

(** X13: The merged table has one value column per input file, and every row
    has a cell, present or missing, for each of them. *)
Theorem create_dataframe_shape csv_files output_file merged_df evs :
  create_dataframe csv_files output_file
    = (ToCsv output_file merged_df :: evs, Ok tt) ->
  length (columns merged_df) = length csv_files /\
  rectangular merged_df.
Proof.
  intros Hrun.
  apply create_dataframe_run in Hrun as (file & rest & -> & _ & ->).
  apply merged_table_shape.
Qed.

Lemma create_dataframe_shape_witness :
  let merged_df :=
    {| columns := ["A"; "B"];
       rows := [(0, [Some (Num 1); None]); (5, [None; Some (Num 10)]);
                (10, [Some (Num 2); None]); (15, [None; None]);
                (20, [Some (Num 3); None])] |} in
  let evs := [Print "Concatenated CSV file saved to final.csv"] in
  create_dataframe [Samples.channel_A; Samples.channel_B] "final.csv"
    = (ToCsv "final.csv" merged_df :: evs, Ok tt) /\
  length (columns merged_df) = length [Samples.channel_A; Samples.channel_B] /\
  rectangular merged_df.
Proof.
  intros merged_df evs. split; [reflexivity|].
  apply (create_dataframe_shape [Samples.channel_A; Samples.channel_B]
           "final.csv" merged_df evs).
  reflexivity.
Defined.

(** X14: The two stages fit: the table [create_dataframe] writes for a folder
    always passes the column check [process_dataframe] makes against the
    same folder. *)
Theorem create_then_process_passes_check b csv_files output_file merged_df evs
    pred_column :
  create_dataframe csv_files output_file
    = (ToCsv output_file merged_df :: evs, Ok tt) ->
  (process_dataframe b csv_files output_file merged_df pred_column).2
  <> Raise AssertionError.
Proof.
  intros Hrun.
  apply create_dataframe_run in Hrun as (file & rest & -> & _ & ->).
  destruct (merged_table_shape file rest) as [Hlen _].
  unfold process_dataframe, len_columns. rewrite Hlen.
  cbn [length].
  replace (S (S (length rest)) =? S (length rest) + 1)%nat with true
    by (symmetry; apply Nat.eqb_eq; lia).
  cbn [negb].
  destruct (trim_valid_range _ pred_column) as [df'|e] eqn:Htrim; simpl.
  - destruct (normalize b df') as [out|e] eqn:Hnorm; simpl; [discriminate|].
    apply normalize_raises in Hnorm. congruence.
  - apply trim_valid_range_raises in Htrim. congruence.
Qed.

Lemma create_then_process_passes_check_witness :
  let merged_df :=
    {| columns := ["A"; "B"];
       rows := [(0, [Some (Num 1); None]); (5, [None; Some (Num 10)]);
                (10, [Some (Num 2); None]); (15, [None; None]);
                (20, [Some (Num 3); None])] |} in
  let files := [Samples.channel_A; Samples.channel_B] in
  let evs := [Print "Concatenated CSV file saved to final.csv"] in
  create_dataframe files "final.csv"
    = (ToCsv "final.csv" merged_df :: evs, Ok tt) /\
  (process_dataframe nanosecond_bounds files "final.csv" merged_df "A").2
  <> Raise AssertionError.
Proof.
  intros merged_df files evs. split; [reflexivity|].
  apply (create_then_process_passes_check nanosecond_bounds files "final.csv"
           merged_df evs "A").
  reflexivity.
Defined.

(** ** The merged table holds the samples of the input series *)

Lemma elem_of_join_left wr right l row :
  row ∈ join_left wr right l <->
  (exists r, r ∈ right /\ r.1 = l.1 /\ row = (l.1, l.2 ++ r.2)) \/
  ((forall r, r ∈ right -> r.1 <> l.1) /\ row = (l.1, l.2 ++ nans wr)).
Proof.
  unfold join_left.
  destruct (filter (fun r => r.1 = l.1) right) as [|r0 ms] eqn:Hms.
  - rewrite list_elem_of_singleton. split.
    + intros ->. right. split; [|reflexivity].
      intros r Hr Hkey.
      now apply (filter_nil_not_elem_of (fun r => r.1 = l.1) right r).
    + intros [(r & Hr & Hkey & _)|[_ ->]]; [|reflexivity].
      exfalso.
      now apply (filter_nil_not_elem_of (fun r => r.1 = l.1) right r).
  - rewrite <- Hms. rewrite list_elem_of_fmap. split.
    + intros (r & -> & Hr). apply list_elem_of_filter in Hr as [Hkey Hr].
      left. now exists r.
    + intros [(r & Hr & Hkey & ->)|[Hnone _]].
      * exists r. split; [reflexivity|]. now apply list_elem_of_filter.
      * exfalso. assert (r0 ∈ filter (fun r => r.1 = l.1) right) as Hr0
          by (rewrite Hms; apply elem_of_cons; now left).
        apply list_elem_of_filter in Hr0 as [Hkey Hr0].
        now apply (Hnone r0).
Qed.

(** A row of the join is a row of the left frame, or padding, followed
    by a row of the right frame under the same key, or padding. *)
Lemma outer_join_rows_split wl wr left right row :
  Forall (fun r => length r.2 = wl) left ->
  row ∈ outer_join_rows wl wr left right ->
  exists pre post,
    row.2 = pre ++ post /\ length pre = wl /\
    (pre = nans wl \/ (row.1, pre) ∈ left) /\
    (post = nans wr \/ (row.1, post) ∈ right).
Proof.
  intros Hwl. unfold outer_join_rows, join_right_only.
  rewrite elem_of_app, list_elem_of_bind, list_elem_of_fmap.
  intros [(l & Hrow & Hl)|(r & -> & Hr)].
  - pose proof (proj1 (Forall_forall _ _) Hwl l Hl) as Hlen; cbn beta in Hlen.
    destruct l as [t cells]; simpl in *.
    apply elem_of_join_left in Hrow as [(r & Hr & Hkey & ->)|[_ ->]]; simpl in *.
    + exists cells, r.2. repeat split; [exact Hlen | now right |].
      right. rewrite <- Hkey. now destruct r.
    + exists cells, (nans wr). repeat split; [exact Hlen | now right | now left].
  - apply list_elem_of_filter in Hr as [_ Hr]. simpl.
    exists (nans wl), r.2. repeat split.
    + unfold nans. apply length_replicate.
    + now left.
    + right. now destruct r.
Qed.

Lemma outer_join_rows_left wl wr left right t cells :
  (t, cells) ∈ left ->
  exists post, (t, cells ++ post) ∈ outer_join_rows wl wr left right.
Proof.
  intros Hl.
  destruct (join_left_nonempty wr right (t, cells)) as [row Hrow].
  assert (exists post, row = (t, cells ++ post)) as [post ->].
  { apply elem_of_join_left in Hrow as [(r & _ & _ & ->)|[_ ->]]; eauto. }
  exists post. unfold outer_join_rows.
  apply elem_of_app. left. apply list_elem_of_bind. eauto.
Qed.

Lemma outer_join_rows_right wl wr left right t cells :
  Forall (fun r => length r.2 = wl) left ->
  (t, cells) ∈ right ->
  exists pre, length pre = wl /\
              (t, pre ++ cells) ∈ outer_join_rows wl wr left right.
Proof.
  intros Hwl Hr. unfold outer_join_rows.
  destruct (has_key t left) eqn:Hkey.
  - apply has_key_true, list_elem_of_fmap in Hkey as ([t' cells'] & Ht & Hl).
    simpl in Ht. subst t'.
    pose proof (proj1 (Forall_forall _ _) Hwl _ Hl) as Hlen; simpl in Hlen.
    exists cells'. split; [exact Hlen|].
    apply elem_of_app. left. apply list_elem_of_bind.
    exists (t, cells'). split; [|exact Hl].
    apply elem_of_join_left. left. now exists (t, cells).
  - exists (nans wl). split; [apply length_replicate|].
    apply elem_of_app. right. unfold join_right_only.
    apply list_elem_of_fmap. exists (t, cells). split; [reflexivity|].
    now apply list_elem_of_filter.
Qed.

Lemma lookup_nans n i (c : cell) : nans n !! i = Some c -> c = None.
Proof. unfold nans. now intros [-> _]%lookup_replicate. Qed.

Lemma merge_outer_records left right sl sr :
  records left sl -> records right sr ->
  records (merge_outer left right) (sl ++ sr).
Proof.
  intros (Hcl & Hwl & Hsl & Hkl) (Hcr & Hwr & Hsr & Hkr).
  unfold records. rewrite merge_outer_columns_length, length_app, Hcl, Hcr.
  split; [reflexivity|]. cbn [merge_outer rows]. rewrite Hcl, Hcr.
  split; [|split].
  - apply merge_sort_Forall. now apply outer_join_rows_width.
  - intros t cells i v Hrow Hcell.
    rewrite merge_sort_Permutation in Hrow.
    apply (outer_join_rows_split _ _ _ _ _ Hwl) in Hrow
      as (pre & post & Hcells & Hlen & Hpre & Hpost).
    simpl in Hcells, Hpre, Hpost. subst cells.
    apply lookup_app_Some in Hcell as [Hcell|[Hge Hcell]].
    + destruct Hpre as [->|Hpre]; [now apply lookup_nans in Hcell|].
      destruct (Hsl _ _ _ _ Hpre Hcell) as (src & Hsrc & Hin).
      exists src. split; [now apply lookup_app_l_Some | exact Hin].
    + destruct Hpost as [->|Hpost]; [now apply lookup_nans in Hcell|].
      destruct (Hsr _ _ _ _ Hpost Hcell) as (src & Hsrc & Hin).
      exists src. split; [|exact Hin].
      unfold cell in *. rewrite lookup_app_r by lia. now rewrite <- Hlen.
  - intros i src t c Hsrc Hin.
    apply lookup_app_Some in Hsrc as [Hsrc|[Hge Hsrc]].
    + destruct (Hkl _ _ _ _ Hsrc Hin) as (cells & Hrow & Hcell).
      destruct (outer_join_rows_left (length sl) (length sr) _ (rows right)
                  _ _ Hrow) as [post Hjoin].
      exists (cells ++ post). split.
      * now rewrite merge_sort_Permutation.
      * now apply lookup_app_l_Some.
    + destruct (Hkr _ _ _ _ Hsrc Hin) as (cells & Hrow & Hcell).
      destruct (outer_join_rows_right (length sl) (length sr) (rows left) _
                  _ _ Hwl Hrow) as (pre & Hlen & Hjoin).
      exists (pre ++ cells). split.
      * now rewrite merge_sort_Permutation.
      * unfold cell in *. rewrite lookup_app_r by lia. now rewrite Hlen.
Qed.

Lemma foldl_merge_outer_records dfs srcs first s0 :
  records first s0 ->
  Forall2 (fun df src => records df [src]) dfs srcs ->
  records (foldl merge_outer first dfs) (s0 ++ srcs).
Proof.
  intros Hfirst Hdfs. revert first s0 Hfirst.
  induction Hdfs as [|df src dfs srcs Hdf _ IH]; intros first s0 Hfirst.
  - now rewrite app_nil_r.
  - cbn [foldl]. rewrite (cons_middle src), app_assoc.
    apply IH. now apply merge_outer_records.
Qed.

Lemma loaded_frame_records name (src : list (Z * cell)) :
  records {| columns := [name]; rows := (fun '(t, v) => (t, [v])) <$> src |}
          [src].
Proof.
  unfold records. cbn [columns rows length].
  split; [reflexivity|]. split; [|split].
  - apply Forall_fmap, Forall_forall. now intros [t v] _.
  - intros t cells i v Hrow Hcell.
    apply list_elem_of_fmap in Hrow as ([t' c] & [= -> ->] & Hin).
    destruct i as [|i]; [|destruct i; discriminate Hcell].
    injection Hcell as ->. now exists src.
  - intros i s t c Hsrc Hin.
    destruct i as [|i]; [|destruct i; discriminate Hsrc].
    injection Hsrc as <-. exists [c]. split; [|reflexivity].
    apply list_elem_of_fmap. now exists (t, c).
Qed.

Lemma sort_values_records df srcs :
  records df srcs -> records (sort_values df) srcs.
Proof.
  intros (Hc & Hw & Hs & Hk). unfold records, sort_values.
  cbn [columns rows]. split; [exact Hc|]. split; [|split].
  - now apply merge_sort_Forall.
  - intros t cells i v Hrow. rewrite merge_sort_Permutation in Hrow. eauto.
  - intros i src t c Hsrc Hin.
    destruct (Hk _ _ _ _ Hsrc Hin) as (cells & Hrow & Hcell).
    exists cells. now rewrite merge_sort_Permutation.
Qed.

Lemma merged_table_records file rest :
  records
    (sort_values
       (foldl merge_outer
          {| columns := [column_name_of file];
             rows := (fun '(t, v) => (t, [v])) <$> content file |}
          ((fun file => {| columns := [column_name_of file];
                           rows := (fun '(t, v) => (t, [v]))
                                     <$> content file |}) <$> rest)))
    (content <$> file :: rest).
Proof.
  apply sort_values_records. rewrite fmap_cons.
  apply (foldl_merge_outer_records _ (content <$> rest) _ [content file]).
  - apply loaded_frame_records.
  - apply Forall2_fmap, Forall_Forall2_diag, Forall_forall.
    intros f _. apply loaded_frame_records.
Qed.

(** X15: No value is invented: a present cell of the merged table, in column
    [i] of the row of timestamp [t], is a value the [i]-th input file
    has at [t]. *)
Theorem create_dataframe_no_invented_value csv_files output_file merged_df evs
    t cells i v :
  create_dataframe csv_files output_file
    = (ToCsv output_file merged_df :: evs, Ok tt) ->
  (t, cells) ∈ rows merged_df ->
  cells !! i = Some (Some v) ->
  exists file, csv_files !! i = Some file /\ (t, Some v) ∈ content file.
Proof.
  intros Hrun Hrow Hcell.
  apply create_dataframe_run in Hrun as (file & rest & -> & _ & ->).
  destruct (merged_table_records file rest) as (_ & _ & Hsound & _).
  destruct (Hsound _ _ _ _ Hrow Hcell) as (src & Hsrc & Hin).
  rewrite list_lookup_fmap in Hsrc.
  destruct ((file :: rest) !! i) as [f|]; [|discriminate].
  injection Hsrc as <-. now exists f.
Qed.

(** X16: No sample is lost: every sample of the [i]-th input file, present or
    missing, is found in column [i] of a row of its timestamp. *)
Theorem create_dataframe_keeps_samples csv_files output_file merged_df evs
    i file t c :
  create_dataframe csv_files output_file
    = (ToCsv output_file merged_df :: evs, Ok tt) ->
  csv_files !! i = Some file ->
  (t, c) ∈ content file ->
  exists cells, (t, cells) ∈ rows merged_df /\ cells !! i = Some c.
Proof.
  intros Hrun Hfile Hin.
  apply create_dataframe_run in Hrun as (file0 & rest & -> & _ & ->).
  destruct (merged_table_records file0 rest) as (_ & _ & _ & Hkeeps).
  apply (Hkeeps i (content file)); [|exact Hin].
  now rewrite list_lookup_fmap, Hfile.
Qed.

Lemma create_dataframe_no_invented_value_witness :
  let merged_df :=
    {| columns := ["A"; "B"];
       rows := [(0, [Some (Num 1); None]); (5, [None; Some (Num 10)]);
                (10, [Some (Num 2); None]); (15, [None; None]);
                (20, [Some (Num 3); None])] |} in
  let files := [Samples.channel_A; Samples.channel_B] in
  let evs := [Print "Concatenated CSV file saved to final.csv"] in
  create_dataframe files "final.csv"
    = (ToCsv "final.csv" merged_df :: evs, Ok tt) /\
  (5, [None; Some (Num 10)]) ∈ rows merged_df /\
  [None; Some (Num 10)] !! 1%nat = Some (Some (Num 10)) /\
  exists file, files !! 1%nat = Some file /\ (5, Some (Num 10)) ∈ content file.
Proof.
  intros merged_df files evs.
  assert ((5, [None; Some (Num 10)]) ∈ rows merged_df) as Hrow
    by (simpl; repeat constructor).
  split; [reflexivity | split; [exact Hrow | split; [reflexivity |]]].
  apply (create_dataframe_no_invented_value files "final.csv" merged_df evs
           5 [None; Some (Num 10)] 1 (Num 10));
    [reflexivity | exact Hrow | reflexivity].
Defined.

Lemma create_dataframe_keeps_samples_witness :
  let merged_df :=
    {| columns := ["A"; "B"];
       rows := [(0, [Some (Num 1); None]); (5, [None; Some (Num 10)]);
                (10, [Some (Num 2); None]); (15, [None; None]);
                (20, [Some (Num 3); None])] |} in
  let files := [Samples.channel_A; Samples.channel_B] in
  let evs := [Print "Concatenated CSV file saved to final.csv"] in
  create_dataframe files "final.csv"
    = (ToCsv "final.csv" merged_df :: evs, Ok tt) /\
  files !! 1%nat = Some Samples.channel_B /\
  (15, None) ∈ content Samples.channel_B /\
  exists cells, (15, cells) ∈ rows merged_df /\ cells !! 1%nat = Some None.
Proof.
  intros merged_df files evs.
  assert ((15, None) ∈ content Samples.channel_B) as Hin
    by (simpl; repeat constructor).
  split; [reflexivity | split; [reflexivity | split; [exact Hin |]]].
  apply (create_dataframe_keeps_samples files "final.csv" merged_df evs
           1 Samples.channel_B 15 None);
    [reflexivity | reflexivity | exact Hin].
Defined.

(** ** One row per distinct timestamp *)

Lemma filter_key_NoDup {A} (k : Z) (rs : list (Z * A)) :
  NoDup rs.*1 ->
  filter (fun r => r.1 = k) rs = [] \/
  exists r, filter (fun r => r.1 = k) rs = [r].
Proof.
  induction rs as [|r rs IH]; [now left|].
  rewrite fmap_cons, NoDup_cons. intros [Hnotin Hnodup].
  destruct (decide (r.1 = k)) as [Hk|Hk].
  - right. exists r. rewrite filter_cons_True by exact Hk. f_equal.
    destruct (filter (fun r => r.1 = k) rs) as [|r' ms] eqn:Hms; [reflexivity|].
    exfalso. apply Hnotin.
    assert (r' ∈ filter (fun r => r.1 = k) rs) as Hr'
      by (rewrite Hms; apply elem_of_cons; now left).
    apply list_elem_of_filter in Hr' as [Hk' Hr'].
    rewrite Hk, <- Hk'. now apply list_elem_of_fmap_2.
  - rewrite filter_cons_False by exact Hk. now apply IH.
Qed.

Lemma join_left_key_NoDup wr right l :
  NoDup right.*1 -> (join_left wr right l).*1 = [l.1].
Proof.
  intros Hnodup. unfold join_left.
  destruct (filter_key_NoDup l.1 right Hnodup) as [->|[r ->]]; reflexivity.
Qed.

Lemma pad_left_keys wl (rs : list (Z * list cell)) :
  ((fun r => (r.1, nans wl ++ r.2)) <$> rs).*1 = rs.*1.
Proof.
  rewrite <- list_fmap_compose. apply list_fmap_ext. now intros i r _.
Qed.

Lemma outer_join_rows_NoDup wl wr left right :
  NoDup left.*1 -> NoDup right.*1 ->
  NoDup (outer_join_rows wl wr left right).*1.
Proof.
  intros Hl Hr. unfold outer_join_rows, join_right_only.
  rewrite fmap_app.
  assert ((left ≫= join_left wr right).*1 = left.*1) as ->.
  { clear Hl. induction left as [|l left IH]; [reflexivity|].
    rewrite bind_cons, fmap_app, IH, (join_left_key_NoDup _ _ _ Hr).
    reflexivity. }
  rewrite pad_left_keys.
  apply NoDup_app. split; [exact Hl|]. split.
  - intros k Hk Hk'.
    apply list_elem_of_fmap in Hk' as (r & -> & Hin).
    apply list_elem_of_filter in Hin as [Hkey _].
    apply has_key_true in Hk. congruence.
  - apply (sublist_NoDup _ right.*1); [exact Hr|].
    apply fmap_sublist, sublist_filter.
Qed.

Lemma merge_sort_keys_NoDup {A} (rs : list (Z * A)) :
  NoDup rs.*1 -> NoDup (merge_sort key_le rs).*1.
Proof. intros H. now rewrite merge_sort_Permutation. Qed.

Lemma foldl_merge_outer_NoDup dfs first :
  NoDup (keys first) -> Forall (fun df => NoDup (keys df)) dfs ->
  NoDup (keys (foldl merge_outer first dfs)).
Proof.
  intros Hfirst Hdfs. revert first Hfirst.
  induction Hdfs as [|df dfs Hdf _ IH]; intros first Hfirst; [exact Hfirst|].
  cbn [foldl]. apply IH. unfold keys. cbn [merge_outer rows].
  now apply merge_sort_keys_NoDup, outer_join_rows_NoDup.
Qed.

Lemma Sorted_le_NoDup_lt (l : list Z) :
  Sorted Z.le l -> NoDup l -> Sorted Z.lt l.
Proof.
  intros Hsorted Hnodup. apply StronglySorted_Sorted.
  apply (Sorted_StronglySorted _) in Hsorted.
  induction Hsorted as [|x l _ IH Hle]; [constructor|].
  apply NoDup_cons in Hnodup as [Hnotin Hnodup].
  constructor; [now apply IH|].
  apply Forall_forall. intros y Hy.
  pose proof (proj1 (Forall_forall _ _) Hle y Hy) as Hxy; cbn beta in Hxy.
  destruct (decide (x = y)) as [->|Hne]; [contradiction|]. lia.
Qed.

Lemma loaded_keys (f : CsvFile) :
  ((fun '(t, v) => (t, [v])) <$> content f).*1 = (content f).*1.
Proof.
  rewrite <- list_fmap_compose. apply list_fmap_ext. now intros i [t v] _.
Qed.

Lemma merged_table_strictly_sorted file rest :
  Forall (fun file => NoDup (content file).*1) (file :: rest) ->
  Sorted Z.lt
    (keys (sort_values
             (foldl merge_outer
                {| columns := [column_name_of file];
                   rows := (fun '(t, v) => (t, [v])) <$> content file |}
                ((fun file => {| columns := [column_name_of file];
                                 rows := (fun '(t, v) => (t, [v]))
                                           <$> content file |}) <$> rest)))).
Proof.
  intros [Hfile Hrest]%Forall_cons.
  unfold keys, sort_values. cbn [rows].
  apply Sorted_le_NoDup_lt; [apply sorted_keys_merge_sort|].
  apply merge_sort_keys_NoDup.
  apply (foldl_merge_outer_NoDup _ {| columns := _; rows := _ |}).
  - unfold keys. cbn [rows]. now rewrite loaded_keys.
  - apply Forall_fmap, Forall_forall. intros f Hf.
    unfold compose, keys. cbn [rows].
    rewrite loaded_keys. exact (proj1 (Forall_forall _ _) Hrest f Hf).
Qed.

(** X17: When no input file repeats a timestamp, the merged table has one row
    per distinct timestamp: its timestamps strictly increase. *)
Theorem create_dataframe_one_row_per_timestamp csv_files output_file merged_df
    evs :
  create_dataframe csv_files output_file
    = (ToCsv output_file merged_df :: evs, Ok tt) ->
  Forall (fun file => NoDup (content file).*1) csv_files ->
  Sorted Z.lt (keys merged_df).
Proof.
  intros Hrun Hnodup.
  apply create_dataframe_run in Hrun as (file & rest & -> & _ & ->).
  now apply merged_table_strictly_sorted.
Qed.

Lemma create_dataframe_one_row_per_timestamp_witness :
  let merged_df :=
    {| columns := ["A"; "B"];
       rows := [(0, [Some (Num 1); None]); (5, [None; Some (Num 10)]);
                (10, [Some (Num 2); None]); (15, [None; None]);
                (20, [Some (Num 3); None])] |} in
  let files := [Samples.channel_A; Samples.channel_B] in
  let evs := [Print "Concatenated CSV file saved to final.csv"] in
  create_dataframe files "final.csv"
    = (ToCsv "final.csv" merged_df :: evs, Ok tt) /\
  Forall (fun file => NoDup (content file).*1) files /\
  Sorted Z.lt (keys merged_df).
Proof.
  intros merged_df files evs.
  assert (Forall (fun file => NoDup (content file).*1) files) as Hnodup.
  { repeat constructor; simpl; intros Hin;
      repeat (apply elem_of_cons in Hin as [Hin|Hin]; [discriminate Hin|]);
      now apply elem_of_nil in Hin. }
  split; [reflexivity | split; [exact Hnodup |]].
  apply (create_dataframe_one_row_per_timestamp files "final.csv" merged_df evs);
    [reflexivity | exact Hnodup].
Defined.

(** ** Aggregator: buckets *)

Lemma foldr_min_le t ts x : x ∈ t :: ts -> foldr Z.min t ts <= x.
Proof.
  induction ts as [|t' ts IH]; simpl.
  - intros ->%list_elem_of_singleton. lia.
  - intros [->|[->|Hin]%elem_of_cons]%elem_of_cons.
    + assert (foldr Z.min t ts <= t) by (apply IH, elem_of_cons; now left). lia.
    + lia.
    + assert (foldr Z.min t ts <= x) by (apply IH, elem_of_cons; now right). lia.
Qed.

Lemma foldr_max_ge t ts x : x ∈ t :: ts -> x <= foldr Z.max t ts.
Proof.
  induction ts as [|t' ts IH]; simpl.
  - intros ->%list_elem_of_singleton. lia.
  - intros [->|[->|Hin]%elem_of_cons]%elem_of_cons.
    + assert (t <= foldr Z.max t ts) by (apply IH, elem_of_cons; now left). lia.
    + lia.
    + assert (x <= foldr Z.max t ts) by (apply IH, elem_of_cons; now right). lia.
Qed.

(** The rows of an aggregated table, by position. *)
Lemma resample_agg_lookup width ncols rs t ts i row :
  rs.*1 = t :: ts ->
  resample_agg width ncols rs !! i = Some row ->
  let origin := bin_origin (t :: ts) in
  let first := bucket_of origin width (foldr Z.min t ts) in
  let last := bucket_of origin width (foldr Z.max t ts) in
  (i < Z.to_nat (last - first + 1))%nat /\
  bucket_start row = origin + (first + Z.of_nat i) * width /\
  length (stats row) = ncols.
Proof.
  intros Htimes. unfold resample_agg. rewrite Htimes.
  intros Hrow. apply list_lookup_fmap_Some in Hrow as (i' & -> & Hi').
  apply lookup_seq in Hi' as [-> Hlt]. cbn [bucket_start stats].
  split; [exact Hlt|]. split; [reflexivity|].
  now rewrite length_fmap, length_seq.
Qed.

(** X22: Every row of the input falls into exactly one bucket of the
    aggregated table: the bucket whose interval, closed on the left,
    holds the row's time. *)
Theorem resample_agg_one_bucket width ncols rs t cells :
  0 < width ->
  (t, cells) ∈ rs ->
  exists row,
    row ∈ resample_agg width ncols rs /\
    bucket_start row <= t < bucket_start row + width /\
    forall row',
      row' ∈ resample_agg width ncols rs ->
      bucket_start row' <= t < bucket_start row' + width ->
      row' = row.
Proof.
  intros Hw Hin.
  assert (t ∈ rs.*1) as Ht by (now apply (list_elem_of_fmap_2 fst) in Hin).
  destruct (rs.*1) as [|t0 ts] eqn:Htimes; [now apply elem_of_nil in Ht|].
  pose proof (foldr_min_le _ _ _ Ht) as Hlo.
  pose proof (foldr_max_ge _ _ _ Ht) as Hhi.
  set (origin := bin_origin (t0 :: ts)).
  set (first := bucket_of origin width (foldr Z.min t0 ts)).
  set (last := bucket_of origin width (foldr Z.max t0 ts)).
  assert (first <= bucket_of origin width t <= last) as Hbkt.
  { unfold first, last, bucket_of. split; apply Z.div_le_mono; lia. }
  set (i := Z.to_nat (bucket_of origin width t - first)).
  assert (exists row, resample_agg width ncols rs !! i = Some row) as [row Hrow].
  { apply lookup_lt_is_Some_2. unfold resample_agg. rewrite Htimes.
    rewrite length_fmap, length_seq. fold origin first last. lia. }
  destruct (resample_agg_lookup _ _ _ _ _ _ _ Htimes Hrow) as (_ & Hstart & _).
  fold origin first in Hstart.
  replace (first + Z.of_nat i) with (bucket_of origin width t) in Hstart by lia.
  exists row. split; [eapply list_elem_of_lookup_2; eauto|]. split.
  - rewrite Hstart. now apply bucket_of_bounds.
  - intros row' Hrow' Hint.
    apply list_elem_of_lookup in Hrow' as [i' Hrow'].
    destruct (resample_agg_lookup _ _ _ _ _ _ _ Htimes Hrow') as (_ & Hstart' & _).
    fold origin first in Hstart'. rewrite Hstart' in Hint.
    pose proof (bucket_of_bounds origin width t Hw) as Hb.
    assert (first + Z.of_nat i' = bucket_of origin width t) as Heq
      by (eapply bucket_interval_unique; eauto).
    assert (i' = i) as -> by lia. congruence.
Qed.

Lemma resample_agg_one_bucket_witness :
  0 < 10 /\
  (86445, [Some 4%Q]) ∈ Samples.indexed_A /\
  exists row,
    row ∈ resample_agg 10 1 Samples.indexed_A /\
    bucket_start row <= 86445 < bucket_start row + 10 /\
    forall row',
      row' ∈ resample_agg 10 1 Samples.indexed_A ->
      bucket_start row' <= 86445 < bucket_start row' + 10 ->
      row' = row.
Proof.
  assert ((86445, [Some 4%Q]) ∈ Samples.indexed_A) as Hin.
  { unfold Samples.indexed_A. repeat constructor. }
  split; [lia | split; [exact Hin |]].
  apply (resample_agg_one_bucket 10 1 Samples.indexed_A 86445 [Some 4%Q]);
    [lia | exact Hin].
Defined.

(** X24: For an interval length that divides the day, as the 3 and 10 minutes
    of the script, every bucket starts at a multiple of the interval
    length: buckets sit at round clock times. *)
Theorem resample_agg_aligned width ncols rs row :
  (width | seconds_per_day) ->
  row ∈ resample_agg width ncols rs ->
  (width | bucket_start row).
Proof.
  intros Hdiv Hrow. apply list_elem_of_lookup in Hrow as [i Hrow].
  destruct (rs.*1) as [|t ts] eqn:Htimes.
  { unfold resample_agg in Hrow. rewrite Htimes in Hrow. discriminate. }
  destruct (resample_agg_lookup _ _ _ _ _ _ _ Htimes Hrow) as (_ & -> & _).
  apply Z.divide_add_r.
  - unfold bin_origin. now apply Z.divide_mul_r.
  - apply Z.divide_factor_r.
Qed.

Lemma resample_agg_aligned_witness :
  let row := {| bucket_start := 86440;
                stats := [(Some (10 # 2)%Q, Some (22627416 # 16000000)%Q)] |} in
  (10 | seconds_per_day) /\
  row ∈ resample_agg 10 1 Samples.indexed_A /\
  (10 | bucket_start row).
Proof.
  intros row.
  assert (10 | seconds_per_day) as Hdiv by (exists 8640; reflexivity).
  assert (row ∈ resample_agg 10 1 Samples.indexed_A) as Hrow.
  { vm_compute. repeat constructor. }
  split; [exact Hdiv | split; [exact Hrow |]].
  apply (resample_agg_aligned 10 1 Samples.indexed_A row);
    [exact Hdiv | exact Hrow].
Defined.

(** ** Aggregator: when a statistic is missing *)

Lemma mean_None xs : mean xs = None <-> xs = [].
Proof. destruct xs; simpl; split; congruence. Qed.

Lemma std_None xs : std xs = None <-> (length xs <= 1)%nat.
Proof.
  unfold std. destruct xs as [|x [|y xs]]; simpl.
  - split; [lia | reflexivity].
  - split; [lia | reflexivity].
  - split; [discriminate | lia].
Qed.

(** X25: A mean is missing exactly when no input row of the bucket has a
    value of the channel, and a standard deviation exactly when at most
    one has: two rows of the bucket that have a value are the same row.
    Zero is a value, not a gap. *)
Theorem resample_agg_missing_iff width ncols rs row j m s :
  0 < width ->
  row ∈ resample_agg width ncols rs ->
  stats row !! j = Some (m, s) ->
  let has_value (r : Z * list (option Q)) :=
    bucket_start row <= r.1 < bucket_start row + width /\
    exists x, r.2 !! j = Some (Some x) in
  (m = None <-> forall r, r ∈ rs -> ~ has_value r) /\
  (s = None <->
   forall i k r1 r2,
     rs !! i = Some r1 -> rs !! k = Some r2 ->
     has_value r1 -> has_value r2 -> i = k).
Proof.
  intros Hw Hrow Hstats has_value.
  destruct (resample_agg_stats _ _ _ _ _ _ _ Hrow Hstats)
    as (origin & bkt & Hstart & -> & ->).
  subst has_value. cbv beta. rewrite Hstart. split.
  - rewrite mean_None, contributing_nil. split.
    + intros Hnone r Hin [Hb [x Hx]].
      apply (Hnone r x Hin); [now apply in_bucket_iff | exact Hx].
    + intros Hnone r x Hin Hb Hx. apply (Hnone r Hin).
      split; [now apply in_bucket_iff | now exists x].
  - rewrite std_None. split.
    + intros Hlen i k r1 r2 Hi Hk [Hb1 [x1 Hx1]] [Hb2 [x2 Hx2]].
      apply in_bucket_iff in Hb1, Hb2; try assumption.
      destruct (Nat.lt_trichotomy i k) as [Hlt|[Heq|Hgt]]; [|exact Heq|];
        exfalso;
        assert (2 <= length (contributing origin width rs bkt j))%nat
          by (apply contributing_two;
              first [ now exists i, k, r1, r2, x1, x2
                    | now exists k, i, r2, r1, x2, x1 ]);
        lia.
    + intros Hsame.
      destruct (le_lt_dec 2 (length (contributing origin width rs bkt j)))
        as [Htwo|Hlt]; [|lia].
      apply contributing_two in Htwo
        as (i & k & r1 & r2 & x1 & x2 & Hlt & Hi & Hk & Hb1 & Hx1 & Hb2 & Hx2).
      assert (i = k); [|lia].
      apply (Hsame i k r1 r2 Hi Hk);
        (split; [now apply in_bucket_iff | eauto]).
Qed.

(** The bucket at 86440 holds the values 4 and 6, in two rows: it has a
    mean and a standard deviation. *)
Lemma resample_agg_missing_iff_witness :
  let row := {| bucket_start := 86440;
                stats := [(Some (10 # 2)%Q, Some (22627416 # 16000000)%Q)] |} in
  0 < 10 /\
  row ∈ resample_agg 10 1 Samples.indexed_A /\
  stats row !! 0%nat = Some (Some (10 # 2)%Q, Some (22627416 # 16000000)%Q) /\
  ~ (forall r, r ∈ Samples.indexed_A ->
       ~ (86440 <= r.1 < 86440 + 10 /\ exists x, r.2 !! 0%nat = Some (Some x))).
Proof.
  intros row.
  assert (row ∈ resample_agg 10 1 Samples.indexed_A) as Hrow.
  { vm_compute. repeat constructor. }
  split; [lia | split; [exact Hrow | split; [reflexivity |]]].
  pose proof (resample_agg_missing_iff 10 1 Samples.indexed_A row 0
                (Some (10 # 2)%Q) (Some (22627416 # 16000000)%Q)
                ltac:(lia) Hrow eq_refl) as Hthm.
  cbv zeta in Hthm. destruct Hthm as [Hmean _].
  intros Hnone. apply Hmean in Hnone. discriminate Hnone.
Defined.

(** ** Coordinate parser: failures *)

Lemma py_float_raises s e : py_float s = Raise e -> e = ValueError.
Proof.
  unfold py_float. destruct (split_dot s) as [ip fp].
  destruct (_ =? _)%nat; [congruence|].
  destruct (digits_value 0 ip), (digits_value 0 fp); congruence.
Qed.

Lemma py_float_empty : py_float EmptyString = Raise ValueError.
Proof. reflexivity. Qed.

Lemma last_char_nonempty c s : exists d, last_char (String c s) = Ok d.
Proof.
  unfold last_char. cbn [String.length].
  replace (S (String.length s) - 1)%nat with (String.length s) by lia.
  assert (forall (s : string) c, exists d,
            String.get (String.length s) (String c s) = Some d) as Hget.
  { clear. induction s as [|c' s IH]; intros c; [now exists c|].
    cbn [String.length String.get]. apply IH. }
  destruct (Hget s c) as [d ->]. now exists d.
Qed.

(** X26: Whatever the text, the parser fails in one way only: with the
    [ValueError] of a field that is not a number.  The direction lookup
    cannot fail, because an empty text is refused before it. *)
Theorem dms_string_to_decimal_raises dms_string e :
  dms_string_to_decimal dms_string = Raise e -> e = ValueError.
Proof.
  destruct dms_string as [s|]; [|discriminate]. unfold dms_string_to_decimal.
  destruct (py_float (substring 0 2 s)) as [degrees|e1] eqn:Hdeg;
    cbn [result_bind].
  2:{ intros [= <-]. now apply py_float_raises in Hdeg. }
  destruct (py_float (substring 2 (String.length s - 3) s)) as [minutes|e2]
    eqn:Hmin; cbn [result_bind].
  2:{ intros [= <-]. now apply py_float_raises in Hmin. }
  destruct s as [|c s].
  - simpl in Hdeg. discriminate.
  - destruct (last_char_nonempty c s) as [d ->]. discriminate.
Qed.

Lemma dms_string_to_decimal_raises_witness :
  dms_string_to_decimal (Some "N37.5") = Raise ValueError /\
  ValueError = ValueError.
Proof.
  split; [reflexivity|].
  apply (dms_string_to_decimal_raises (Some "N37.5") ValueError). reflexivity.
Defined.

(** X27: A text of fewer than three characters has no minutes field and is
    always refused. *)
Theorem dms_string_to_decimal_short s :
  (String.length s < 3)%nat ->
  dms_string_to_decimal (Some s) = Raise ValueError.
Proof.
  intros Hlen. unfold dms_string_to_decimal.
  assert (substring 2 (String.length s - 3) s = EmptyString) as ->.
  { destruct s as [|a [|b [|c s]]]; simpl in *; try reflexivity. lia. }
  destruct (py_float (substring 0 2 s)) as [degrees|e] eqn:Hdeg;
    cbn [result_bind].
  - now rewrite py_float_empty.
  - now apply py_float_raises in Hdeg as ->.
Qed.

Lemma dms_string_to_decimal_short_witness :
  (String.length "37" < 3)%nat /\
  dms_string_to_decimal (Some "37") = Raise ValueError.
Proof.
  split; [simpl; lia|].
  apply (dms_string_to_decimal_short "37"). simpl. lia.
Defined.

(** ** Channel names *)

Lemma has_char_app p (s1 s2 : string) :
  has_char p (s1 +:+ s2) = has_char p s1 || has_char p s2.
Proof.
  induction s1 as [|c s1 IH]; [reflexivity|].
  simpl. now rewrite IH, orb_assoc.
Qed.

Lemma basename_join (folder name : string) :
  has_char is_sep name = false ->
  basename (folder +:+ String "/" name) = name.
Proof.
  intros Hname. induction folder as [|c folder IH].
  - simpl. now rewrite Hname.
  - change (String c folder +:+ String "/" name)
      with (String c (folder +:+ String "/" name)).
    cbn [basename]. rewrite has_char_app.
    replace (has_char is_sep (String "/" name)) with true by reflexivity.
    now rewrite orb_true_r.
Qed.

Lemma splitext_root_aux_csv seen (name : string) :
  seen = true \/ has_char (fun c => negb (is_dot c)) name = true ->
  splitext_root_aux seen (name +:+ ".csv") = name.
Proof.
  revert seen. induction name as [|c name IH]; intros seen Hseen.
  - destruct Hseen as [->|Hseen]; [reflexivity | discriminate].
  - change (String c name +:+ ".csv") with (String c (name +:+ ".csv")).
    cbn [splitext_root_aux]. rewrite has_char_app.
    replace (has_char is_dot ".csv") with true by reflexivity.
    rewrite orb_true_r, andb_false_r. f_equal. apply IH.
    destruct Hseen as [->|Hseen]; [now left|].
    cbn [has_char] in Hseen. apply orb_true_iff in Hseen as [Hc|Hname].
    + left. rewrite Hc. apply orb_true_r.
    + now right.
Qed.

(** X20: The channel name is the file name without its directory and without
    the [.csv] extension: a file stored as [folder/name.csv] gives the
    channel [name].  (A name made of dots only is the exception: it is
    taken for a hidden file and keeps its extension.) *)
Theorem column_name_of_csv folder name rows_of_file :
  has_char is_sep name = false ->
  has_char (fun c => negb (is_dot c)) name = true ->
  column_name_of {| path := folder +:+ String "/" (name +:+ ".csv");
                    content := rows_of_file |}
  = name.
Proof.
  intros Hsep Hname. unfold column_name_of. cbn [path].
  rewrite basename_join.
  - unfold splitext_root. apply splitext_root_aux_csv. now right.
  - rewrite has_char_app, Hsep. reflexivity.
Qed.

Lemma column_name_of_csv_witness :
  has_char is_sep "fuelVolumeFlowRate" = false /\
  has_char (fun c => negb (is_dot c)) "fuelVolumeFlowRate" = true /\
  column_name_of {| path := "/home/user/raw_data"
                            +:+ String "/" ("fuelVolumeFlowRate" +:+ ".csv");
                    content := [] |}
  = "fuelVolumeFlowRate".
Proof.
  split; [reflexivity | split; [reflexivity |]].
  apply (column_name_of_csv "/home/user/raw_data" "fuelVolumeFlowRate" []);
    reflexivity.
Defined.

(** X21: Two different file names of one folder never give the same channel
    name, so a single folder cannot produce a collision. *)
Theorem column_name_of_injective folder name1 name2 rows1 rows2 :
  has_char is_sep name1 = false ->
  has_char is_sep name2 = false ->
  has_char (fun c => negb (is_dot c)) name1 = true ->
  has_char (fun c => negb (is_dot c)) name2 = true ->
  column_name_of {| path := folder +:+ String "/" (name1 +:+ ".csv");
                    content := rows1 |}
  = column_name_of {| path := folder +:+ String "/" (name2 +:+ ".csv");
                      content := rows2 |} ->
  name1 = name2.
Proof.
  intros Hs1 Hs2 Hn1 Hn2. unfold column_name_of. cbn [path].
  rewrite !basename_join by (rewrite has_char_app; cbn; now rewrite ?Hs1, ?Hs2).
  unfold splitext_root.
  rewrite !splitext_root_aux_csv by (now right). trivial.
Qed.

(** ** Naming collisions *)










(** ** Summary reporter *)

Lemma Qsum_isna col :
  (Qsum (isna <$> col)
   == inject_Z (Z.of_nat (length (filter (fun c => notna c = false) col))))%Q.
Proof.
  induction col as [|c col IH]; [reflexivity|].
  rewrite fmap_cons. unfold Qsum in *. cbn [foldr]. rewrite IH.
  destruct c as [v|]; unfold isna; cbn [notna].
  - rewrite filter_cons_False by discriminate. apply Qplus_0_l.
  - rewrite filter_cons_True by reflexivity. cbn [length].
    rewrite Nat2Z.inj_succ, <- Z.add_1_l, inject_Z_plus. reflexivity.
Qed.

Lemma nan_percentage_value col p :
  nan_percentage col = Some p ->
  (0 < length col)%nat /\
  (p == inject_Z (Z.of_nat (length (filter (fun c => notna c = false) col)))
        / inject_Z (Z.of_nat (length col)) * 100)%Q.
Proof.
  intros Hp. destruct col as [|c col]; [discriminate|].
  split; [simpl; lia|].
  assert (mean (isna <$> c :: col)
          = Some (Qsum (isna <$> c :: col)
                  / inject_Z (Z.of_nat (length (isna <$> c :: col))))%Q) as Hm
    by reflexivity.
  assert (Qsum (isna <$> c :: col)
          / inject_Z (Z.of_nat (length (isna <$> c :: col))) * 100
          == inject_Z (Z.of_nat (length (filter (fun c => notna c = false)
                                                (c :: col))))
             / inject_Z (Z.of_nat (length (c :: col))) * 100)%Q as Hq
    by (rewrite Qsum_isna, length_fmap; reflexivity).
  unfold nan_percentage in Hp. rewrite Hm in Hp.
  injection Hp as Hp. rewrite <- Hp. exact Hq.
Qed.

Lemma share_zero (k n : Z) :
  0 < n -> 0 <= k <= n ->
  ((0 <= inject_Z k / inject_Z n * 100 <= 100) /\
   (inject_Z k / inject_Z n * 100 == 0 <-> k = 0%Z) /\
   (inject_Z k / inject_Z n * 100 == 100 <-> k = n))%Q.
Proof.
  intros Hn Hk.
  destruct n as [|n|n]; try lia.
  unfold Qle, Qeq, Qdiv, Qmult, Qinv, inject_Z. simpl.
  rewrite ?Z.mul_1_r, ?Pos.mul_1_r.
  repeat split; intros; nia.
Qed.

(** X28: The reported percentage of missing values of a column lies between
    0 and 100; it is 0 exactly when no cell is missing and 100 exactly
    when every cell is. *)
Theorem nan_percentage_bounds col p :
  nan_percentage col = Some p ->
  (0 <= p <= 100)%Q /\
  (p == 0 <-> Forall (fun c => notna c = true) col)%Q /\
  (p == 100 <-> Forall (fun c => notna c = false) col)%Q.
Proof.
  intros Hp. apply nan_percentage_value in Hp as [Hlen Hp].
  set (k := length (filter (fun c => notna c = false) col)) in *.
  assert (k <= length col)%nat as Hk by apply length_filter.
  destruct (share_zero (Z.of_nat k) (Z.of_nat (length col))
              ltac:(lia) ltac:(lia)) as (Hbounds & Hzero & Hall).
  rewrite Hp. split; [exact Hbounds|]. split.
  - rewrite Hzero. subst k. split.
    + intros Hk0. apply Forall_forall. intros c Hc.
      destruct (notna c) eqn:Hn; [reflexivity|]. exfalso.
      assert (c ∈ filter (fun c => notna c = false) col) as Hin
        by (now apply list_elem_of_filter).
      destruct (filter _ col); [now apply elem_of_nil in Hin | simpl in Hk0; lia].
    + intros Hall'.
      assert (filter (fun c => notna c = false) col = []) as ->; [|reflexivity].
      clear -Hall'. induction Hall' as [|c col' Hc _ IH]; [reflexivity|].
      rewrite filter_cons_False by congruence. apply IH.
  - rewrite Hall. subst k. split.
    + intros Hkn. apply Nat2Z.inj in Hkn.
      clear -Hkn. induction col as [|c col IH]; [constructor|].
      destruct (notna c) eqn:Hn.
      * rewrite filter_cons_False in Hkn by congruence.
        pose proof (length_filter (fun c => notna c = false) col).
        simpl in Hkn. lia.
      * rewrite filter_cons_True in Hkn by exact Hn.
        constructor; [exact Hn|]. apply IH. simpl in Hkn. lia.
    + intros Hall'.
      assert (filter (fun c => notna c = false) col = col) as ->;
        [|reflexivity].
      clear -Hall'. induction Hall' as [|c col' Hc _ IH]; [reflexivity|].
      rewrite filter_cons_True by exact Hc. now rewrite IH.
Qed.

Lemma nan_percentage_bounds_witness :
  let col := [None; Some (Num 3); None; Some (Str "3745.5N")] in
  nan_percentage col = Some ((2 # 4) * 100)%Q /\
  (0 <= (2 # 4) * 100 <= 100)%Q /\
  ((2 # 4) * 100 == 0 <-> Forall (fun c => notna c = true) col)%Q /\
  ((2 # 4) * 100 == 100 <-> Forall (fun c => notna c = false) col)%Q.
Proof.
  intros col. split; [reflexivity|].
  apply (nan_percentage_bounds col ((2 # 4) * 100)%Q). reflexivity.
Defined.

(** ** [create_dataframe]: one file, and the order of the files *)

Lemma column_name_of_injective_witness :
  has_char is_sep "speed" = false /\
  has_char is_sep "speed" = false /\
  has_char (fun c => negb (is_dot c)) "speed" = true /\
  has_char (fun c => negb (is_dot c)) "speed" = true /\
  column_name_of {| path := "raw_data" +:+ String "/" ("speed" +:+ ".csv");
                    content := [] |}
  = column_name_of {| path := "raw_data" +:+ String "/" ("speed" +:+ ".csv");
                      content := [(0, None)] |} /\
  "speed" = "speed".
Proof.
  split; [reflexivity | split; [reflexivity | split; [reflexivity |
    split; [reflexivity | split; [reflexivity |]]]]].
  apply (column_name_of_injective "raw_data" "speed" "speed" [] [(0, None)]);
    reflexivity.
Defined.

(** X18: With a single input file the merge is the identity: the table
    written has the one column of the file and the file's rows, none
    lost and none repeated, in ascending timestamp order. *)
Theorem create_dataframe_single_file file output_file :
  column_name_of file <> "timestamp" ->
  exists merged_df,
    create_dataframe [file] output_file
      = ([ToCsv output_file merged_df;
          Print ("Concatenated CSV file saved to " +:+ output_file)], Ok tt) /\
    columns merged_df = [column_name_of file] /\
    rows merged_df ≡ₚ (fun '(t, v) => (t, [v])) <$> content file /\
    Sorted Z.le (keys merged_df).
Proof.
  intros Hname. unfold create_dataframe. cbn [load_all].
  unfold read_csv_named. destruct (decide _) as [|_]; [contradiction|].
  eexists. split; [reflexivity|]. cbn [sort_values columns rows foldl tail].
  split; [reflexivity|]. split.
  - apply merge_sort_Permutation.
  - unfold keys. cbn [rows]. apply sorted_keys_merge_sort.
Qed.

Lemma create_dataframe_single_file_witness :
  column_name_of Samples.channel_B <> "timestamp" /\
  exists merged_df,
    create_dataframe [Samples.channel_B] "final.csv"
      = ([ToCsv "final.csv" merged_df;
          Print ("Concatenated CSV file saved to " +:+ "final.csv")], Ok tt) /\
    columns merged_df = [column_name_of Samples.channel_B] /\
    rows merged_df ≡ₚ (fun '(t, v) => (t, [v])) <$> content Samples.channel_B /\
    Sorted Z.le (keys merged_df).
Proof.
  split; [discriminate|].
  apply (create_dataframe_single_file Samples.channel_B "final.csv").
  discriminate.
Defined.

Lemma merged_table_keys file rest t :
  t ∈ keys (sort_values
              (foldl merge_outer
                 {| columns := [column_name_of file];
                    rows := (fun '(t, v) => (t, [v])) <$> content file |}
                 ((fun file => {| columns := [column_name_of file];
                                  rows := (fun '(t, v) => (t, [v]))
                                            <$> content file |}) <$> rest)))
  <-> exists f, f ∈ file :: rest /\ t ∈ (content f).*1.
Proof.
  unfold keys at 1, sort_values. cbn [rows]. rewrite keys_merge_sort.
  etransitivity; [apply foldl_merge_outer_keys|].
  unfold keys at 1. cbn [rows]. rewrite loaded_keys. split.
  - intros [Hfile|(df & Hdf & Ht)].
    + exists file. split; [apply elem_of_cons; now left | exact Hfile].
    + apply list_elem_of_fmap in Hdf as (f & -> & Hf).
      unfold keys in Ht. cbn [rows] in Ht. rewrite loaded_keys in Ht.
      exists f. split; [apply elem_of_cons; now right | exact Ht].
  - intros (f & [->|Hf]%elem_of_cons & Ht); [now left|].
    right.
    exists {| columns := [column_name_of f];
              rows := (fun '(t, v) => (t, [v])) <$> content f |}.
    split; [apply list_elem_of_fmap; now exists f|].
    unfold keys. cbn [rows]. now rewrite loaded_keys.
Qed.

Lemma Sorted_lt_unique (l1 l2 : list Z) :
  Sorted Z.lt l1 -> Sorted Z.lt l2 ->
  (forall x, x ∈ l1 <-> x ∈ l2) -> l1 = l2.
Proof.
  intros H1 H2 Hsame.
  assert (forall l, Sorted Z.lt l -> NoDup l /\ Sorted Z.le l) as Hlt.
  { clear. intros l Hl. apply (Sorted_StronglySorted _) in Hl.
    induction Hl as [|x l _ [IHn IHs] Hx].
    - split; constructor.
    - split.
      + apply NoDup_cons. split; [|exact IHn]. intros Hin.
        pose proof (proj1 (Forall_forall _ _) Hx x Hin) as Hxx;
          cbn beta in Hxx. lia.
      + constructor; [exact IHs|]. destruct l as [|y l]; constructor.
        apply Forall_cons in Hx as [Hxy _]. lia. }
  destruct (Hlt _ H1) as [Hn1 Hs1]. destruct (Hlt _ H2) as [Hn2 Hs2].
  apply (Sorted_unique Z.le); [exact Hs1 | exact Hs2|].
  now apply NoDup_Permutation.
Qed.

(** X19: [glob] returns the files in no particular order.  When no file
    repeats a timestamp, the timestamp column of the merged table does
    not depend on that order. *)
Theorem create_dataframe_timestamps_any_order csv_files csv_files' output_file
    merged_df merged_df' evs evs' :
  csv_files ≡ₚ csv_files' ->
  Forall (fun file => NoDup (content file).*1) csv_files ->
  create_dataframe csv_files output_file
    = (ToCsv output_file merged_df :: evs, Ok tt) ->
  create_dataframe csv_files' output_file
    = (ToCsv output_file merged_df' :: evs', Ok tt) ->
  keys merged_df = keys merged_df'.
Proof.
  intros Hperm Hnodup Hrun Hrun'.
  assert (Forall (fun file => NoDup (content file).*1) csv_files') as Hnodup'
    by (now rewrite <- Hperm).
  apply create_dataframe_run in Hrun as (file & rest & -> & _ & ->).
  apply create_dataframe_run in Hrun' as (file' & rest' & -> & _ & ->).
  apply Sorted_lt_unique.
  - now apply merged_table_strictly_sorted.
  - now apply merged_table_strictly_sorted.
  - intros t. rewrite !merged_table_keys.
    split; intros (f & Hf & Ht); exists f; (split; [|exact Ht]).
    + now rewrite <- Hperm.
    + now rewrite Hperm.
Qed.

Lemma create_dataframe_timestamps_any_order_witness :
  let merged_df :=
    {| columns := ["A"; "B"];
       rows := [(0, [Some (Num 1); None]); (5, [None; Some (Num 10)]);
                (10, [Some (Num 2); None]); (15, [None; None]);
                (20, [Some (Num 3); None])] |} in
  let merged_df' :=
    {| columns := ["B"; "A"];
       rows := [(0, [None; Some (Num 1)]); (5, [Some (Num 10); None]);
                (10, [None; Some (Num 2)]); (15, [None; None]);
                (20, [None; Some (Num 3)])] |} in
  let files := [Samples.channel_A; Samples.channel_B] in
  let files' := [Samples.channel_B; Samples.channel_A] in
  let evs := [Print "Concatenated CSV file saved to final.csv"] in
  files ≡ₚ files' /\
  Forall (fun file => NoDup (content file).*1) files /\
  create_dataframe files "final.csv"
    = (ToCsv "final.csv" merged_df :: evs, Ok tt) /\
  create_dataframe files' "final.csv"
    = (ToCsv "final.csv" merged_df' :: evs, Ok tt) /\
  keys merged_df = keys merged_df'.
Proof.
  intros merged_df merged_df' files files' evs.
  assert (files ≡ₚ files') as Hperm by apply Permutation_swap.
  assert (Forall (fun file => NoDup (content file).*1) files) as Hnodup.
  { repeat constructor; simpl; intros Hin;
      repeat (apply elem_of_cons in Hin as [Hin|Hin]; [discriminate Hin|]);
      now apply elem_of_nil in Hin. }
  split; [exact Hperm | split; [exact Hnodup | split; [reflexivity |
    split; [reflexivity |]]]].
  apply (create_dataframe_timestamps_any_order files files' "final.csv"
           merged_df merged_df' evs evs);
    [exact Hperm | exact Hnodup | reflexivity | reflexivity].
Defined.
